(** * Session controller of the auth module ([src/lib/auth/auth.js])

    A shallow embedding of the [Auth] class: the session state kept in the
    storage collaborator, the strategy registry, the lifecycle operations
    ([mounted], [login], [fetchUser], [logout], [reset]), the token and
    request helpers, the error listeners, the redirect policy and the scope
    check, followed by the properties established about them. *)

From Stdlib Require Import ZArith Ascii.
From stdpp Require Import base option strings gmap list pretty.

Local Open Scope string_scope.
Set Warnings "-register-all".

(** ** JavaScript values *)

(** The values that flow through the controller: users, tokens, endpoint
    descriptions, errors.  Numbers are the integral ones; objects are lists
    of own properties in insertion order; [VError name message] is an
    [Error] instance. *)
Inductive value : Type :=
| VUndefined
| VNull
| VBool (b : bool)
| VNum (n : Z)
| VStr (s : string)
| VArr (items : list value)
| VObj (fields : list (string * value))
| VError (name message : string).

(** [Boolean(v)], also the test of [if (v)] and [!v]. *)
Definition truthy (v : value) : bool :=
  match v with
  | VUndefined | VNull => false
  | VBool b => b
  | VNum n => negb (n =? 0)%Z
  | VStr s => negb (String.eqb s "")
  | VArr _ | VObj _ | VError _ _ => true
  end.

(** [v != null]: loose inequality, false for [null] and [undefined] only. *)
Definition not_nullish (v : value) : bool :=
  match v with
  | VUndefined | VNull => false
  | _ => true
  end.

(** [typeof v === 'object'] *)
Definition typeof_object (v : value) : bool :=
  match v with
  | VNull | VArr _ | VObj _ | VError _ _ => true
  | _ => false
  end.

(** [Array.isArray(v)] *)
Definition isArray (v : value) : bool :=
  match v with
  | VArr _ => true
  | _ => false
  end.

(** [String(v)], the coercion applied to a property key and by [+] on a
    string. *)
Fixpoint to_string (v : value) : string :=
  match v with
  | VUndefined => "undefined"
  | VNull => "null"
  | VBool true => "true"
  | VBool false => "false"
  | VNum n => pretty n
  | VStr s => s
  | VArr items =>
      let item x := match x with
                    | VUndefined | VNull => ""
                    | _ => to_string x
                    end in
      String.concat "," (List.map item items)
  | VObj _ => "[object Object]"
  | VError name message =>
      if String.eqb message "" then name else name ++ ": " ++ message
  end.

(** [v === VStr s] *)
Definition strict_eq_str (s : string) (v : value) : bool :=
  match v with
  | VStr s' => String.eqb s s'
  | _ => false
  end.

(** Own-property read [o[k]] on an object; [undefined] when absent. *)
Fixpoint assoc (k : string) (fields : list (string * value)) : value :=
  match fields with
  | [] => VUndefined
  | (k', v) :: rest => if String.eqb k k' then v else assoc k rest
  end.

(** Own-property write [o[k] = v] on a list of properties. *)
Fixpoint assoc_set (k : string) (v : value) (fields : list (string * value))
  : list (string * value) :=
  match fields with
  | [] => [(k, v)]
  | (k', v') :: rest =>
      if String.eqb k k' then (k, v) :: rest
      else (k', v') :: assoc_set k v rest
  end.

(** Property read [v[k]] where [v] is known to be neither [null] nor
    [undefined]; primitives have none of the properties read here. *)
Definition prop (k : string) (v : value) : value :=
  match v with
  | VObj fields => assoc k fields
  | _ => VUndefined
  end.

(** The characters of a string, each as a string. *)
Fixpoint chars (s : string) : list value :=
  match s with
  | EmptyString => []
  | String c rest => VStr (String c EmptyString) :: chars rest
  end.

(** The own enumerable properties that [Object.assign] copies from a
    source: the fields of an object, the indexed items of an array or of
    a string, nothing for the other values. *)
Definition own_props (v : value) : list (string * value) :=
  match v with
  | VObj fields => fields
  | VArr items => imap (fun i x => (pretty i, x)) items
  | VStr s => imap (fun i x => (pretty i, x)) (chars s)
  | _ => []
  end.

(** [Object.assign({}, a, b)] *)
Definition assign2 (a b : value) : list (string * value) :=
  foldl (fun acc kv => assoc_set kv.1 kv.2 acc)
        (foldl (fun acc kv => assoc_set kv.1 kv.2 acc) [] (own_props a))
        (own_props b).

(** [new TypeError(...)] raised on reading property [k] of [undefined]. *)
Definition TypeError_undefined (k : string) : value :=
  VError "TypeError" ("Cannot read property '" ++ k ++ "' of undefined").

(** ** Session world *)

Record Route := { path : string; fullPath : string }.

(** Calls made to the strategies, the error listeners and the collaborators,
    in order. *)
Inductive event : Type :=
| HookCall (hook : string) (args : list value)
| Broadcast (error payload : value)
| TransportRequest (endpoint : value)
| RouterRedirect (to : value)
| LocationReplace (to : value).

(** Everything the controller reads or writes: the reactive state object
    [$state], the persisted universal key space, [this.error], the current
    route, and the trace of collaborator calls. *)
Record World := {
  state : gmap string value;
  universal : gmap string value;
  error : value;
  route : Route;
  trace : list event
}.

Definition with_state (f : gmap string value → gmap string value) (w : World) :=
  {| state := f (state w); universal := universal w; error := error w;
     route := route w; trace := trace w |}.
Definition with_universal (f : gmap string value → gmap string value) (w : World) :=
  {| state := state w; universal := f (universal w); error := error w;
     route := route w; trace := trace w |}.
Definition with_error (e : value) (w : World) :=
  {| state := state w; universal := universal w; error := e;
     route := route w; trace := trace w |}.
Definition with_route (r : Route) (w : World) :=
  {| state := state w; universal := universal w; error := error w;
     route := r; trace := trace w |}.
Definition emit (ev : event) (w : World) :=
  {| state := state w; universal := universal w; error := error w;
     route := route w; trace := trace w ++ [ev] |}.

(** ** Storage collaborator *)

Module Storage.

(** The storage class of [./storage] is imported by [auth.js] but is not
    among the sources; its five accessors used by the controller follow
    the description of the collaborator in the specification. *)

(** Modelled from the spec: [getState] of the storage collaborator, the
    read of an in-memory session field. *)
Definition getState (k : string) (w : World) : value :=
  default VUndefined (state w !! k).

(** Modelled from the spec: [setState] of the storage collaborator, the
    write of an in-memory session field. *)
Definition setState (k : string) (v : value) (w : World) : World :=
  with_state <[k := v]> w.

(** Modelled from the spec: [getUniversal] of the storage collaborator,
    the read of a persisted field. *)
Definition getUniversal (k : string) (w : World) : value :=
  default VUndefined (universal w !! k).

(** Modelled from the spec: [setUniversal] of the storage collaborator,
    the write of a persisted field, synced into the session state (this
    is how [$state.strategy] follows [setUniversal('strategy', _)]). *)
Definition setUniversal (k : string) (v : value) (w : World) : World :=
  with_state <[k := v]> (with_universal <[k := v]> w).

(** Modelled from the spec: [syncUniversal] of the storage collaborator;
    it restores the persisted value, or the fallback when nothing is
    persisted, into the session state. *)
Definition syncUniversal (k : string) (fallback : value) (w : World) : World :=
  let v := getUniversal k w in
  let v := if not_nullish v then v else fallback in
  if not_nullish v then setUniversal k v w else w.

End Storage.

(** [options.initialState = { user: null, loggedIn: false }] *)
Definition initialState : gmap string value :=
  <["user" := VNull]> (<["loggedIn" := VBool false]> ∅).

(** ** Completions and promises *)

Inductive completion (A : Type) : Type :=
| Normal (a : A)
| Throw (e : value).
Arguments Normal {A} a.
Arguments Throw {A} e.

Inductive settled : Type :=
| Fulfilled (v : value)
| Rejected (e : value).

(** A synchronous piece of code: runs on the world, returns or throws. *)
Definition Sync (A : Type) : Type := World → World * completion A.

(** A promise, read as the work still to be done until it settles. *)
Definition Promise : Type := World → World * settled.

Definition ret {A} (a : A) : Sync A := fun w => (w, Normal a).
Definition throw {A} (e : value) : Sync A := fun w => (w, Throw e).
Definition bind {A B} (c : Sync A) (k : A → Sync B) : Sync B :=
  fun w => match c w with
           | (w1, Normal a) => k a w1
           | (w1, Throw e) => (w1, Throw e)
           end.
Definition modify (f : World → World) : Sync unit := fun w => (f w, Normal tt).
Definition gets {A} (f : World → A) : Sync A := fun w => (w, Normal (f w)).

Notation "'let!' x ':=' c 'in' k" := (bind c (fun x => k))
  (at level 10, x name, c at level 100, k at level 200).
Notation "'run!' c 'in' k" := (bind c (fun _ => k))
  (at level 10, c at level 100, k at level 200).

Definition Promise_resolve (v : value) : Promise := fun w => (w, Fulfilled v).
Definition Promise_reject (e : value) : Promise := fun w => (w, Rejected e).

(** A handler returns a value (here wrapped by [Promise_resolve]) or a
    promise, or throws. *)
Definition handler : Type := value → Sync Promise.

Definition run_handler (h : handler) (x : value) : Promise :=
  fun w => match h x w with
           | (w1, Normal q) => q w1
           | (w1, Throw ex) => (w1, Rejected ex)
           end.

(** [p.then(h)] *)
Definition then_ (p : Promise) (h : handler) : Promise :=
  fun w => match p w with
           | (w1, Fulfilled v) => run_handler h v w1
           | (w1, Rejected e) => (w1, Rejected e)
           end.

(** [p.catch(h)] *)
Definition catch_ (p : Promise) (h : handler) : Promise :=
  fun w => match p w with
           | (w1, Fulfilled v) => (w1, Fulfilled v)
           | (w1, Rejected e) => run_handler h e w1
           end.

(** ** Strategies, options and the controller object *)

(** A capability of a strategy is called with the arguments passed through;
    it returns (its result taken through [Promise.resolve], as every call
    site does) or throws. *)
Definition capability : Type := list value → Sync Promise.

(** A strategy implements any subset of the five lifecycle hooks. *)
Record Strategy := {
  s_mounted : option capability;
  s_login : option capability;
  s_fetchUser : option capability;
  s_logout : option capability;
  s_reset : option capability
}.

(** An error listener [(error, payload) => ...]. *)
Definition listener : Type := value → value → Sync unit.

Record Options := {
  redirect_map : option (gmap string value);  (* [options.redirect], or falsy *)
  rewriteRedirects : bool;
  fullPathRedirect : bool;
  token_prefix : string;                      (* [options.token.prefix] *)
  scopeKey : string;
  defaultStrategy : value
}.

(** [strategies] is what a lookup in [this.strategies] yields for each
    name: the registered strategies. *)
Record Auth := {
  options : Options;
  strategies : gmap string Strategy;
  errorListeners : list listener;
  axios_request : value → Promise;            (* [ctx.app.$axios.request] *)
  browser : bool                              (* [process.browser] *)
}.

Definition payload (method : string) : value := VObj [("method", VStr method)].

(** ** The [Auth] class *)

Section Controller.

(** Imported helpers whose code is not in [auth.js]: [getProp] from the
    [dotprop] package, and [isUnset], [isRelativeURL], [isSameURL] from
    [./utilities].  They are pure; the development is parametric in them. *)
Variable getProp : value → value → value.
Variable isUnset : value → bool.
Variable isRelativeURL : value → bool.
Variable isSameURL : value → value → bool.

Variable this : Auth.

(** [this.$state[k]] *)
Definition state_field (k : string) (w : World) : value :=
  default VUndefined (state w !! k).

(** [get strategy ()]: the registry entry under the active name. *)
Definition strategy (w : World) : option Strategy :=
  strategies this !! to_string (state_field "strategy" w).

(** [this.strategy.<hook>]: reading a hook off the active strategy throws
    when no strategy is registered under the active name. *)
Definition strategy_hook (name : string) (hook : Strategy → option capability)
  : Sync (option capability) :=
  fun w => match strategy w with
           | None => (w, Throw (TypeError_undefined name))
           | Some s => (w, Normal (hook s))
           end.

(** [this.strategy.<hook>(...args)] *)
Definition call_hook (name : string) (f : capability) (args : list value)
  : Sync Promise :=
  run! modify (emit (HookCall name args)) in
  f args.

(** *** Error listeners *)

Fixpoint call_each (fns : list listener) (error payload : value) : Sync unit :=
  match fns with
  | [] => ret tt
  | fn :: rest => run! fn error payload in call_each rest error payload
  end.

Definition callOnError (error payload : value) : Sync unit :=
  run! modify (with_error error) in
  run! modify (emit (Broadcast error payload)) in
  call_each (errorListeners this) error payload.

(** [error => this.callOnError(error, { method })] *)
Definition on_error (method : string) : handler :=
  fun error =>
    run! callOnError error (payload method) in
    ret (Promise_resolve VUndefined).

(** *** User and token helpers *)

Definition setUser (user : value) : Sync unit :=
  run! modify (Storage.setState "loggedIn" (VBool (truthy user))) in
  modify (Storage.setState "user" user).

Definition token_key (strategy_name : value) : string :=
  token_prefix (options this) ++ to_string strategy_name.

Definition getToken (strategy_name : value) : Sync value :=
  gets (Storage.getUniversal (token_key strategy_name)).

Definition setToken (strategy_name token : value) : Sync unit :=
  modify (Storage.setUniversal (token_key strategy_name) token).

Definition syncToken (strategy_name : value) : Sync unit :=
  modify (Storage.syncUniversal (token_key strategy_name) VUndefined).

(** *** Lifecycle *)

Definition fetchUser (args : list value) : Sync Promise :=
  let! hook := strategy_hook "fetchUser" s_fetchUser in
  match hook with
  | None => ret (Promise_resolve VUndefined)
  | Some f =>
      let! p := call_hook "fetchUser" f args in
      ret (catch_ p (on_error "fetchUser"))
  end.

Definition fetchUserOnce (args : list value) : Sync Promise :=
  let! user := gets (state_field "user") in
  if negb (truthy user) then fetchUser args
  else ret (Promise_resolve VUndefined).

Definition mounted (args : list value) : Sync Promise :=
  let! hook := strategy_hook "mounted" s_mounted in
  match hook with
  | None => fetchUserOnce []
  | Some f =>
      let! p := call_hook "mounted" f args in
      ret (catch_ p (on_error "mounted"))
  end.

Definition reset (args : list value) : Sync Promise :=
  let! hook := strategy_hook "reset" s_reset in
  match hook with
  | None =>
      run! setUser VNull in
      let! name := gets (state_field "strategy") in
      run! setToken name VNull in
      ret (Promise_resolve VUndefined)
  | Some f =>
      let! p := call_hook "reset" f args in
      ret (catch_ p (on_error "reset"))
  end.

(** A promise whose result is dropped by the caller: its work still runs,
    the caller goes on with [Promise.resolve()]. *)
Definition detached (p : Promise) : Promise :=
  fun w => ((p w).1, Fulfilled VUndefined).

Definition logout (args : list value) : Sync Promise :=
  let! hook := strategy_hook "logout" s_logout in
  match hook with
  | None =>
      let! p := reset [] in
      ret (detached p)
  | Some f =>
      let! p := call_hook "logout" f args in
      ret (catch_ p (on_error "logout"))
  end.

Definition wrapLogin (promise : Promise) : Sync Promise :=
  run! modify (Storage.setState "busy" (VBool true)) in
  run! modify (with_error VNull) in
  ret (catch_
         (then_ promise
            (fun _ =>
               run! modify (Storage.setState "busy" (VBool false)) in
               ret (Promise_resolve VUndefined)))
         (fun error =>
            run! modify (Storage.setState "busy" (VBool false)) in
            ret (Promise_reject error))).

Definition login (args : list value) : Sync Promise :=
  let! hook := strategy_hook "login" s_login in
  match hook with
  | None => ret (Promise_resolve VUndefined)
  | Some f =>
      let! started := call_hook "login" f args in
      let! wrapped := wrapLogin started in
      ret (catch_ wrapped (on_error "login"))
  end.

Definition setStrategy (name : string) : Sync Promise :=
  let! current := gets (Storage.getUniversal "strategy") in
  if strict_eq_str name current then ret (Promise_resolve VUndefined)
  else
    run! modify (Storage.setUniversal "strategy" (VStr name)) in
    mounted [].

Definition loginWith (name : string) (args : list value) : Sync Promise :=
  let! switched := setStrategy name in
  ret (then_ switched (fun _ => login args)).

(** [init], without the browser-only subscription to [loggedIn] changes
    (the callback it registers with the storage is [redirect]). *)
Definition init : Sync Promise :=
  run! modify (Storage.syncUniversal "strategy" (defaultStrategy (options this))) in
  mounted [].

(** *** Requests *)

(** Property read [v.k]; throws on [undefined] and [null]. *)
Definition read_prop (k : string) (v : value) : Sync value :=
  if not_nullish v then ret (prop k v) else throw (TypeError_undefined k).

Definition request (endpoint defaults : value) : Sync Promise :=
  let _endpoint :=
    if typeof_object defaults then VObj (assign2 defaults endpoint)
    else endpoint in
  run! modify (emit (TransportRequest _endpoint)) in
  ret (catch_
         (then_ (axios_request this _endpoint)
            (fun response =>
               let! propertyName := read_prop "propertyName" _endpoint in
               let! data := read_prop "data" response in
               if truthy propertyName
               then ret (Promise_resolve (getProp data propertyName))
               else ret (Promise_resolve data)))
         (fun error =>
            run! callOnError error (payload "request") in
            ret (Promise_reject error))).

(** [headers['Authorization'] = token]: on an object it sets the property,
    on a primitive it throws in strict code; named properties of arrays and
    errors are outside the value model and the write is not recorded. *)
Definition set_Authorization (token headers : value) : Sync value :=
  match headers with
  | VObj hs => ret (VObj (assoc_set "Authorization" token hs))
  | VArr _ | VError _ _ => ret headers
  | _ => throw (VError "TypeError" "Cannot create property 'Authorization'")
  end.

Definition requestWith (strategy_name endpoint defaults : value) : Sync Promise :=
  let! token := getToken strategy_name in
  if isUnset token then ret (Promise_reject (VError "Error" "No Token"))
  else
    let _endpoint := assign2 defaults endpoint in
    let _endpoint :=
      if negb (truthy (assoc "headers" _endpoint))
      then assoc_set "headers" (VObj []) _endpoint
      else _endpoint in
    let headers := assoc "headers" _endpoint in
    let! headers :=
      if negb (truthy (prop "Authorization" headers))
      then set_Authorization token headers
      else ret headers in
    request (VObj (assoc_set "headers" headers _endpoint)) VUndefined.

(** *** Redirects *)

(** [const from = ...] of [redirect]. *)
Definition redirect_from (w : World) : value :=
  if fullPathRedirect (options this)
  then VStr (path (route w))
  else VStr (fullPath (route w)).

(** The rewrites of [redirect]: remember where a login redirect came from,
    and on [home] take the remembered place, once. *)
Definition apply_rewrites (name : string) (from to : value) : Sync value :=
  run! (if String.eqb name "login" && isRelativeURL from
           && negb (isSameURL to from)
        then modify (Storage.setUniversal "redirect" from)
        else ret tt) in
  if String.eqb name "home" then
    let! redirect := gets (Storage.getUniversal "redirect") in
    run! modify (Storage.setUniversal "redirect" VNull) in
    ret (if isRelativeURL redirect then redirect else to)
  else ret to.

Definition redirect (name : string) (noRouter : bool) : Sync unit :=
  match redirect_map (options this) with
  | None => ret tt
  | Some destinations =>
      let! from := gets redirect_from in
      let to := default VUndefined (destinations !! name) in
      if negb (truthy to) then ret tt
      else
        let! to :=
          if rewriteRedirects (options this)
          then apply_rewrites name from to
          else ret to in
        if isSameURL to from then ret tt
        else if browser this then
          if noRouter then modify (emit (LocationReplace to))
          else modify (emit (RouterRedirect to))
        else modify (emit (RouterRedirect to))
  end.

(** *** Scopes *)

(** [userScopes.includes(scope)] for a string [scope]. *)
Definition includes (scope : string) (v : value) : bool :=
  match v with
  | VArr items => existsb (strict_eq_str scope) items
  | _ => false
  end.

Definition hasScope (scope : string) (w : World) : value :=
  let user := state_field "user" w in
  let userScopes :=
    if truthy user then getProp user (VStr (scopeKey (options this)))
    else user in
  if negb (truthy userScopes) then VUndefined
  else if isArray userScopes then VBool (includes scope userScopes)
  else VBool (truthy (getProp userScopes (VStr scope))).

End Controller.

(** [registerStrategy] and [onError] change the controller object itself.
    The assignment [this.strategies[name] = strategy] creates or replaces
    the entry of [name]; under the name [__proto__] it creates none (it
    replaces the prototype of the registry object, which the registry as
    a map of its entries does not record). *)
Definition registerStrategy (name : string) (s : Strategy) (this : Auth) : Auth :=
  if String.eqb name "__proto__" then this
  else
    {| options := options this;
       strategies := <[name := s]> (strategies this);
       errorListeners := errorListeners this;
       axios_request := axios_request this;
       browser := browser this |}.


(** The world in which an operation ends: its synchronous part, then the
    promise it returned, run until it settles. *)
Definition final (c : Sync Promise) (w : World) : World :=
  match c w with
  | (w1, Normal p) => (p w1).1
  | (w1, Throw _) => w1
  end.

(** How an operation ends for its caller. *)
Inductive outcome : Type :=
| Threw (e : value)
| Settled (s : settled).

Definition result (c : Sync Promise) (w : World) : outcome :=
  match c w with
  | (w1, Normal p) => Settled (p w1).2
  | (_, Throw e) => Threw e
  end.

(** *** Deprecated accessors *)

(** The two warn-once flags of the controller, and what has been written
    to the console. *)
Record Deprecation := {
  state_warn_shown : bool;       (* [this._state_warn_shown] *)
  get_state_warn_shown : bool;   (* [this._get_state_warn_shown] *)
  console : list string
}.

Definition state_warning : string :=
  "[AUTH] $auth.state is deprecated. Please use $auth.$state or top level props like $auth.loggedIn".

Definition getState_warning : string :=
  "[AUTH] $auth.getState is deprecated. Please use $auth.$storage.getState() or top level props like $auth.loggedIn".

(** [get state ()] *)
Definition get_state (d : Deprecation) (w : World)
  : Deprecation * gmap string value :=
  let d :=
    if negb (state_warn_shown d)
    then {| state_warn_shown := true;
            get_state_warn_shown := get_state_warn_shown d;
            console := console d ++ [state_warning] |}
    else d in
  (d, state w).

(** [getState (key)] *)
Definition getState (key : string) (d : Deprecation) (w : World)
  : Deprecation * value :=
  let d :=
    if negb (get_state_warn_shown d)
    then {| state_warn_shown := state_warn_shown d;
            get_state_warn_shown := true;
            console := console d ++ [getState_warning] |}
    else d in
  (d, Storage.getState key w).

(** ** Instances used in the examples *)

Module Fixtures.

(** An instance of [getProp] for paths of one segment: the own property
    of that name. *)
Definition getProp_own (v path : value) : value :=
  match path with
  | VStr k => prop k v
  | _ => VUndefined
  end.

(** Modelled from the spec: [isUnset] of [./utilities], which is not among
    the sources; a value is unset when it is [undefined] or [null]. *)
Definition isUnset_nullish (v : value) : bool := negb (not_nullish v).

Fixpoint before_query (s : string) : string :=
  match s with
  | EmptyString => EmptyString
  | String c rest =>
      if Ascii.eqb c "?"%char then EmptyString else String c (before_query rest)
  end.

(** Modelled from the spec: [isSameURL] of [./utilities]; two URLs
    normalize to the same URL when they agree up to the query string. *)
Definition isSameURL_path (a b : value) : bool :=
  match a, b with
  | VStr x, VStr y => String.eqb (before_query x) (before_query y)
  | _, _ => false
  end.

(** Modelled from the spec: [isRelativeURL] of [./utilities]; a same-origin
    relative path starts with one slash. *)
Definition isRelativeURL_slash (v : value) : bool :=
  match v with
  | VStr (String c rest) =>
      Ascii.eqb c "/"%char && negb (String.prefix "/" rest)
  | _ => false
  end.

Definition no_hooks : Strategy :=
  {| s_mounted := None; s_login := None; s_fetchUser := None;
     s_logout := None; s_reset := None |}.

Definition bad_credentials : value := VError "Error" "bad credentials".

(** A strategy whose [login] returns a promise rejected with
    [bad_credentials]. *)
Definition failing_login : Strategy :=
  {| s_mounted := None;
     s_login := Some (fun _ => ret (Promise_reject bad_credentials));
     s_fetchUser := None; s_logout := None; s_reset := None |}.

Definition destinations : gmap string value :=
  <["login" := VStr "/login"]> (<["logout" := VStr "/"]> (<["home" := VStr "/"]> ∅)).

Definition opts (full : bool) : Options :=
  {| redirect_map := Some destinations;
     rewriteRedirects := true;
     fullPathRedirect := full;
     token_prefix := "_token.";
     scopeKey := "scope";
     defaultStrategy := VStr "local" |}.

Definition empty_response : value := VObj [("data", VObj [])].

(** A controller with the given registry and no listeners. *)
Definition auth (full : bool) (registry : gmap string Strategy) : Auth :=
  {| options := opts full;
     strategies := registry;
     errorListeners := [];
     axios_request := fun _ => Promise_resolve empty_response;
     browser := true |}.

(** The world right after construction, with [name] as active strategy
    and the route at [p]. *)
Definition world (name : string) (p : Route) : World :=
  {| state := <["strategy" := VStr name]> initialState;
     universal := <["strategy" := VStr name]> ∅;
     error := VUndefined;
     route := p;
     trace := [] |}.

Definition at_path (p : string) : Route := {| path := p; fullPath := p |}.

(** The world after construction with [user] as the current user. *)
Definition world_of_user (user : value) : World :=
  Storage.setState "user" user
    (Storage.setState "loggedIn" (VBool (truthy user))
       (world "local" (at_path "/"))).

(** Strategies with the same hook in all five places. *)
Definition with_all_hooks (f : capability) : Strategy :=
  {| s_mounted := Some f; s_login := Some f; s_fetchUser := Some f;
     s_logout := Some f; s_reset := Some f |}.

Definition rejecting : capability :=
  fun _ => ret (Promise_reject bad_credentials).
Definition fulfilling (v : value) : capability :=
  fun _ => ret (Promise_resolve v).
Definition throwing : capability := fun _ => throw bad_credentials.

(** A listener that notes the error under a key of the session state,
    and one that throws. *)
Definition noting (k : string) : listener :=
  fun error _ => modify (Storage.setState k error).
Definition listener_failure : value := VError "Error" "listener failed".
Definition failing_listener : listener := fun _ _ => throw listener_failure.

(** A controller with the given registry and listeners. *)
Definition auth_with (registry : gmap string Strategy)
    (fns : list listener) (transport : value → Promise) : Auth :=
  {| options := opts false;
     strategies := registry;
     errorListeners := fns;
     axios_request := transport;
     browser := true |}.

End Fixtures.

(** ** Notions used in the statements *)

(** The world after the fallback of [reset]: user cleared, token of the
    active strategy cleared. *)
Definition cleared (this : Auth) (w : World) : World :=
  Storage.setUniversal (token_key this (state_field "strategy" w)) VNull
    (Storage.setState "user" VNull
       (Storage.setState "loggedIn" (VBool false) w)).

(** The navigation [redirect] performs towards [to]. *)
Definition nav (this : Auth) (noRouter : bool) (to : value) : event :=
  if browser this && noRouter then LocationReplace to else RouterRedirect to.

(** [options.redirect[name]], when there is a redirect map. *)
Definition configured_destination (this : Auth) (name : string) : value :=
  match redirect_map (options this) with
  | Some destinations => default VUndefined (destinations !! name)
  | None => VUndefined
  end.

(** The destination of a redirect after any rewrite: the configured one,
    or, for [home] with rewrites enabled, the persisted return-to target
    when that is a relative URL. *)
Definition resolved_destination (isRelativeURL : value → bool)
    (this : Auth) (name : string) (w : World) : value :=
  let stored := Storage.getUniversal "redirect" w in
  if rewriteRedirects (options this) && String.eqb name "home"
     && isRelativeURL stored
  then stored
  else configured_destination this name.

(** What the rewrites of a redirect leave in the storage: a login redirect
    remembers where it came from, a home redirect forgets it. *)
Definition rewritten (isRelativeURL : value → bool)
    (isSameURL : value → value → bool)
    (this : Auth) (name : string) (w : World) : World :=
  let from := redirect_from this w in
  if rewriteRedirects (options this) then
    if String.eqb name "login" then
      if isRelativeURL from
         && negb (isSameURL (configured_destination this name) from)
      then Storage.setUniversal "redirect" from w
      else w
    else if String.eqb name "home"
    then Storage.setUniversal "redirect" VNull w
    else w
  else w.

(** The scope claim of the current user: the value under the configured
    claim path, or the user itself when there is no user to read from. *)
Definition scope_claim (getProp : value → value → value)
    (this : Auth) (w : World) : value :=
  let user := state_field "user" w in
  if truthy user then getProp user (VStr (scopeKey (options this))) else user.

(** The invariant of the session state, with the test [setUser] applies:
    [loggedIn] is [Boolean(user)]. *)
Definition logged_in_inv (w : World) : Prop :=
  state_field "loggedIn" w = VBool (truthy (state_field "user" w)).

(** The operations of the controller. *)
Inductive operation : Type :=
| OpInit
| OpSetStrategy (name : string)
| OpMounted (args : list value)
| OpLoginWith (name : string) (args : list value)
| OpLogin (args : list value)
| OpFetchUser (args : list value)
| OpFetchUserOnce (args : list value)
| OpLogout (args : list value)
| OpReset (args : list value)
| OpSetUser (user : value)
| OpGetToken (strategy_name : value)
| OpSetToken (strategy_name token : value)
| OpSyncToken (strategy_name : value)
| OpRequest (endpoint defaults : value)
| OpRequestWith (strategy_name endpoint defaults : value)
| OpCallOnError (error payload : value)
| OpRedirect (name : string) (noRouter : bool)
| OpHasScope (scope : string).

(** The world an operation leaves once everything it started has
    settled. *)
Definition exec (getProp : value → value → value) (isUnset : value → bool)
    (isRelativeURL : value → bool) (isSameURL : value → value → bool)
    (this : Auth) (op : operation) (w : World) : World :=
  match op with
  | OpInit => final (init this) w
  | OpSetStrategy name => final (setStrategy this name) w
  | OpMounted args => final (mounted this args) w
  | OpLoginWith name args => final (loginWith this name args) w
  | OpLogin args => final (login this args) w
  | OpFetchUser args => final (fetchUser this args) w
  | OpFetchUserOnce args => final (fetchUserOnce this args) w
  | OpLogout args => final (logout this args) w
  | OpReset args => final (reset this args) w
  | OpSetUser user => (setUser user w).1
  | OpGetToken name => (getToken this name w).1
  | OpSetToken name token => (setToken this name token w).1
  | OpSyncToken name => (syncToken this name w).1
  | OpRequest endpoint defaults =>
      final (request getProp this endpoint defaults) w
  | OpRequestWith name endpoint defaults =>
      final (requestWith getProp isUnset this name endpoint defaults) w
  | OpCallOnError error payload => (callOnError this error payload w).1
  | OpRedirect name noRouter =>
      (redirect isRelativeURL isSameURL this name noRouter w).1
  | OpHasScope _ => w
  end.

(** Code that keeps a property of the world, and whose result satisfies
    [Q] when it returns. *)
Definition keeps {A} (P : World → Prop) (Q : A → Prop) (c : Sync A) : Prop :=
  ∀ w, P w → P (c w).1 ∧ ∀ a, (c w).2 = Normal a → Q a.

Definition keeps_promise (P : World → Prop) (p : Promise) : Prop :=
  ∀ w, P w → P (p w).1.

Definition keeps_handler (P : World → Prop) (h : handler) : Prop :=
  ∀ x, keeps P (keeps_promise P) (h x).

Definition keeps_hook (P : World → Prop) (hook : option capability) : Prop :=
  ∀ f args, hook = Some f → keeps P (keeps_promise P) (f args).

Definition keeps_listener (P : World → Prop) (fn : listener) : Prop :=
  ∀ error payload, keeps P (fun _ => True) (fn error payload).

(** The code plugged into the controller (strategies, listeners,
    transport) keeps [P]. *)
Record well_behaved (P : World → Prop) (this : Auth) : Prop := {
  wb_mounted : ∀ k s, strategies this !! k = Some s → keeps_hook P (s_mounted s);
  wb_login : ∀ k s, strategies this !! k = Some s → keeps_hook P (s_login s);
  wb_fetchUser :
    ∀ k s, strategies this !! k = Some s → keeps_hook P (s_fetchUser s);
  wb_logout : ∀ k s, strategies this !! k = Some s → keeps_hook P (s_logout s);
  wb_reset : ∀ k s, strategies this !! k = Some s → keeps_hook P (s_reset s);
  wb_listeners : Forall (keeps_listener P) (errorListeners this);
  wb_transport : ∀ endpoint, keeps_promise P (axios_request this endpoint)
}.

(** No token is stored under the keys of the user fields. *)
Definition token_keys_apart (this : Auth) : Prop :=
  ∀ name, token_key this name ≠ "user" ∧ token_key this name ≠ "loggedIn".

(** The five lifecycle hooks, with the controller method of each. *)
Inductive lifecycle : Type :=
| Mounted | Login | FetchUser | Logout | Reset.

Definition method_of (h : lifecycle) : string :=
  match h with
  | Mounted => "mounted"
  | Login => "login"
  | FetchUser => "fetchUser"
  | Logout => "logout"
  | Reset => "reset"
  end.

Definition hook_of (h : lifecycle) (s : Strategy) : option capability :=
  match h with
  | Mounted => s_mounted s
  | Login => s_login s
  | FetchUser => s_fetchUser s
  | Logout => s_logout s
  | Reset => s_reset s
  end.

Definition operation_of (this : Auth) (h : lifecycle)
  : list value → Sync Promise :=
  match h with
  | Mounted => mounted this
  | Login => login this
  | FetchUser => fetchUser this
  | Logout => logout this
  | Reset => reset this
  end.

(** What the caller of a promise-returning wrapper sees of an operation
    run inside a handler: a throw has become a rejection. *)
Definition inside_handler (o : outcome) : outcome :=
  match o with
  | Threw e => Settled (Rejected e)
  | Settled s => Settled s
  end.

(** Successive calls of the deprecated [getState], with what each
    returned. *)
Fixpoint getState_each (keys : list string) (d : Deprecation) (w : World)
  : Deprecation * list value :=
  match keys with
  | [] => (d, [])
  | key :: rest =>
      let '(d1, v) := getState key d w in
      let '(d2, vs) := getState_each rest d1 w in
      (d2, v :: vs)
  end.

(** ** Properties *)

(** *** Error listeners *)

(** With listeners that return, [callOnError] records the error and the
    broadcast before the first listener runs. *)
Lemma callOnError_unfold this e p w :
  callOnError this e p w =
  call_each (errorListeners this) e p (emit (Broadcast e p) (with_error e w)).
Proof. reflexivity. Qed.

Lemma callOnError_no_listeners this e p w :
  errorListeners this = [] →
  callOnError this e p w = (emit (Broadcast e p) (with_error e w), Normal tt).
Proof. intros H. rewrite callOnError_unfold, H. reflexivity. Qed.

(** *** Login failures *)

Lemma strategy_hook_some this name hook s w :
  strategy this w = Some s →
  strategy_hook this name hook w = (w, Normal (hook s)).
Proof. intros H. unfold strategy_hook. by rewrite H. Qed.

Lemma strategy_hook_none this name hook w :
  strategy this w = None →
  strategy_hook this name hook w = (w, Throw (TypeError_undefined name)).
Proof. intros H. unfold strategy_hook. by rewrite H. Qed.

(** The synchronous part of [login] when the strategy call returns: the
    hook has run, [busy] is set and the last error cleared. *)
Lemma login_started this s f args w w1 p :
  strategy this w = Some s →
  s_login s = Some f →
  f args (emit (HookCall "login" args) w) = (w1, Normal p) →
  ∃ q, login this args w
       = (with_error VNull (Storage.setState "busy" (VBool true) w1), Normal q)
     ∧ q = catch_
             (catch_
                (then_ p
                   (fun _ =>
                      run! modify (Storage.setState "busy" (VBool false)) in
                      ret (Promise_resolve VUndefined)))
                (fun error =>
                   run! modify (Storage.setState "busy" (VBool false)) in
                   ret (Promise_reject error)))
             (on_error this "login").
Proof.
  intros Hs Hf Hp. eexists. split; [|reflexivity].
  unfold login, bind at 1. rewrite (strategy_hook_some _ _ _ _ _ Hs), Hf.
  unfold bind at 1, call_hook, bind at 1, modify at 1. rewrite Hp.
  reflexivity.
Qed.

(** C1, as the code has it: when the strategy's login rejects with [e],
    [login] resets [busy], records [e] as the last error, broadcasts it
    with [{ method: 'login' }] to every listener in order, and, the
    listeners having returned, its promise is fulfilled with [undefined]:
    the rejection is not passed on to the caller. *)
Theorem login_rejection_broadcast_then_fulfilled this s f args w w1 p w3 e w5 :
  strategy this w = Some s →
  s_login s = Some f →
  f args (emit (HookCall "login" args) w) = (w1, Normal p) →
  p (with_error VNull (Storage.setState "busy" (VBool true) w1))
    = (w3, Rejected e) →
  call_each (errorListeners this) e (payload "login")
    (emit (Broadcast e (payload "login"))
       (with_error e (Storage.setState "busy" (VBool false) w3)))
    = (w5, Normal tt) →
  result (login this args) w = Settled (Fulfilled VUndefined)
  ∧ final (login this args) w = w5.
Proof.
  intros Hs Hf Hp Hrej Hls.
  destruct (login_started _ _ _ _ _ _ _ Hs Hf Hp) as (q & Hq & Hdef).
  assert (Hrun : q (with_error VNull (Storage.setState "busy" (VBool true) w1))
                 = (w5, Fulfilled VUndefined)).
  { subst q. unfold catch_, then_. rewrite Hrej.
    unfold run_handler, on_error, bind, modify, ret, Promise_reject.
    rewrite callOnError_unfold, Hls. reflexivity. }
  unfold result, final. by rewrite Hq, Hrun.
Qed.

(** When a listener throws, what it threw is what the caller of [login]
    gets. *)
Lemma login_rejection_listener_throws this s f args w w1 p w3 e w5 ex :
  strategy this w = Some s →
  s_login s = Some f →
  f args (emit (HookCall "login" args) w) = (w1, Normal p) →
  p (with_error VNull (Storage.setState "busy" (VBool true) w1))
    = (w3, Rejected e) →
  call_each (errorListeners this) e (payload "login")
    (emit (Broadcast e (payload "login"))
       (with_error e (Storage.setState "busy" (VBool false) w3)))
    = (w5, Throw ex) →
  result (login this args) w = Settled (Rejected ex).
Proof.
  intros Hs Hf Hp Hrej Hls.
  destruct (login_started _ _ _ _ _ _ _ Hs Hf Hp) as (q & Hq & Hdef).
  unfold result. rewrite Hq. subst q. unfold catch_, then_. rewrite Hrej.
  unfold run_handler, on_error, bind, modify, ret, Promise_reject.
  by rewrite callOnError_unfold, Hls.
Qed.

(** When the strategy's login is fulfilled, so is [login], and nothing is
    broadcast. *)
Lemma login_success this s f args w w1 p w3 v :
  strategy this w = Some s →
  s_login s = Some f →
  f args (emit (HookCall "login" args) w) = (w1, Normal p) →
  p (with_error VNull (Storage.setState "busy" (VBool true) w1))
    = (w3, Fulfilled v) →
  result (login this args) w = Settled (Fulfilled VUndefined)
  ∧ final (login this args) w = Storage.setState "busy" (VBool false) w3.
Proof.
  intros Hs Hf Hp Hful.
  destruct (login_started _ _ _ _ _ _ _ Hs Hf Hp) as (q & Hq & Hdef).
  unfold result, final. rewrite Hq. subst q. unfold catch_, then_.
  rewrite Hful. done.
Qed.

Lemma login_rejection_broadcast_then_fulfilled_witness :
  let this := Fixtures.auth false {["local" := Fixtures.failing_login]} in
  let w := Fixtures.world "local" (Fixtures.at_path "/login") in
  result (login this []) w = Settled (Fulfilled VUndefined)
  ∧ final (login this []) w
    = emit (Broadcast Fixtures.bad_credentials (payload "login"))
        (with_error Fixtures.bad_credentials
           (Storage.setState "busy" (VBool false)
              (with_error VNull
                 (Storage.setState "busy" (VBool true)
                    (emit (HookCall "login" []) w))))).
Proof.
  intros this w.
  eapply (login_rejection_broadcast_then_fulfilled this Fixtures.failing_login
            _ [] w _ _ _ Fixtures.bad_credentials);
    reflexivity.
Defined.

(** C1 as stated fails: a strategy whose login rejects with
    [bad_credentials] leaves the promise of [login] fulfilled, not
    rejected, although the error has been broadcast. *)
Lemma login_rejection_not_reraised :
  let this := Fixtures.auth false {["local" := Fixtures.failing_login]} in
  let w := Fixtures.world "local" (Fixtures.at_path "/login") in
  result (login this []) w = Settled (Fulfilled VUndefined)
  ∧ result (login this []) w ≠ Settled (Rejected Fixtures.bad_credentials)
  ∧ trace (final (login this []) w)
    = [HookCall "login" [];
       Broadcast Fixtures.bad_credentials (payload "login")].
Proof.
  cbv zeta. split; [reflexivity|]. split; [|reflexivity].
  intros H. vm_compute in H. discriminate H.
Qed.

(** *** Missing strategies and missing hooks *)

Lemma state_field_setState k k' v w :
  state_field k (Storage.setState k' v w)
  = if decide (k' = k) then v else state_field k w.
Proof.
  unfold state_field, Storage.setState, with_state. cbn.
  rewrite lookup_insert. by case_decide.
Qed.

Lemma reset_fallback this s args w :
  strategy this w = Some s →
  s_reset s = None →
  reset this args w = (cleared this w, Normal (Promise_resolve VUndefined)).
Proof.
  intros Hs Hr. unfold reset, bind at 1.
  rewrite (strategy_hook_some _ _ _ _ _ Hs), Hr.
  unfold cleared, setUser, setToken, bind, modify, gets, ret. cbn.
  by rewrite !state_field_setState.
Qed.

(** C8, as the code has it: with no strategy registered under the active
    name every lifecycle operation throws a [TypeError] before doing
    anything; the no-op and fallback paths are those of a registered
    strategy that lacks the hook. *)
Theorem lifecycle_missing_strategy_or_hook this args w :
  (strategy this w = None →
     mounted this args w = (w, Throw (TypeError_undefined "mounted"))
     ∧ login this args w = (w, Throw (TypeError_undefined "login"))
     ∧ fetchUser this args w = (w, Throw (TypeError_undefined "fetchUser"))
     ∧ logout this args w = (w, Throw (TypeError_undefined "logout"))
     ∧ reset this args w = (w, Throw (TypeError_undefined "reset")))
  ∧ (∀ s, strategy this w = Some s →
       (s_mounted s = None → mounted this args w = fetchUserOnce this [] w)
       ∧ (s_login s = None →
            login this args w = (w, Normal (Promise_resolve VUndefined)))
       ∧ (s_fetchUser s = None →
            fetchUser this args w = (w, Normal (Promise_resolve VUndefined)))
       ∧ (s_logout s = None →
            logout this args w
            = match reset this [] w with
              | (w1, Normal p) => (w1, Normal (detached p))
              | (w1, Throw e) => (w1, Throw e)
              end)
       ∧ (s_reset s = None →
            reset this args w
            = (cleared this w, Normal (Promise_resolve VUndefined)))).
Proof.
  split.
  - intros Hs.
    unfold mounted, login, fetchUser, logout, reset, bind.
    rewrite !(strategy_hook_none _ _ _ _ Hs). done.
  - intros s Hs. repeat split; intros Hh.
    + unfold mounted, bind at 1.
      by rewrite (strategy_hook_some _ _ _ _ _ Hs), Hh.
    + unfold login, bind at 1.
      by rewrite (strategy_hook_some _ _ _ _ _ Hs), Hh.
    + unfold fetchUser, bind at 1.
      by rewrite (strategy_hook_some _ _ _ _ _ Hs), Hh.
    + unfold logout, bind at 1.
      rewrite (strategy_hook_some _ _ _ _ _ Hs), Hh.
      unfold bind. by destruct (reset this [] w) as [w1 [p|e]].
    + by apply (reset_fallback this s).
Qed.

Lemma lifecycle_missing_strategy_or_hook_witness :
  let this := Fixtures.auth false ∅ in
  let this' := Fixtures.auth false {["local" := Fixtures.no_hooks]} in
  let w := Fixtures.world "local" (Fixtures.at_path "/") in
  (mounted this [] w = (w, Throw (TypeError_undefined "mounted"))
   ∧ login this [] w = (w, Throw (TypeError_undefined "login"))
   ∧ fetchUser this [] w = (w, Throw (TypeError_undefined "fetchUser"))
   ∧ logout this [] w = (w, Throw (TypeError_undefined "logout"))
   ∧ reset this [] w = (w, Throw (TypeError_undefined "reset")))
  ∧ mounted this' [] w = fetchUserOnce this' [] w
  ∧ login this' [] w = (w, Normal (Promise_resolve VUndefined))
  ∧ fetchUser this' [] w = (w, Normal (Promise_resolve VUndefined))
  ∧ reset this' [] w = (cleared this' w, Normal (Promise_resolve VUndefined)).
Proof.
  intros this this' w.
  pose proof (lifecycle_missing_strategy_or_hook this [] w) as [Hnone _].
  pose proof (lifecycle_missing_strategy_or_hook this' [] w) as [_ Hsome].
  destruct (Hsome Fixtures.no_hooks eq_refl) as (Hm & Hl & Hf & _ & Hr).
  split; [apply Hnone; reflexivity|].
  split; [apply Hm; reflexivity|].
  split; [apply Hl; reflexivity|].
  split; [apply Hf; reflexivity|apply Hr; reflexivity].
Defined.

(** C8 as stated fails: with an empty registry each lifecycle operation
    raises instead of taking a no-op path. *)
Lemma lifecycle_unregistered_strategy_throws :
  let this := Fixtures.auth false ∅ in
  let w := Fixtures.world "local" (Fixtures.at_path "/") in
  result (mounted this []) w = Threw (TypeError_undefined "mounted")
  ∧ result (login this []) w = Threw (TypeError_undefined "login")
  ∧ result (fetchUser this []) w = Threw (TypeError_undefined "fetchUser")
  ∧ result (logout this []) w = Threw (TypeError_undefined "logout")
  ∧ result (reset this []) w = Threw (TypeError_undefined "reset").
Proof. cbv zeta. repeat split; reflexivity. Qed.

(** *** Switching strategy *)

Lemma strict_eq_str_spec name v : strict_eq_str name v = true ↔ v = VStr name.
Proof.
  destruct v; cbn; try (split; [discriminate|congruence]).
  rewrite String.eqb_eq. split; congruence.
Qed.

Lemma strategy_after_setStrategy this name w :
  strategy this (Storage.setUniversal "strategy" (VStr name) w)
  = strategies this !! name.
Proof.
  unfold strategy, state_field, Storage.setUniversal, with_state. cbn.
  by rewrite lookup_insert_eq.
Qed.

(** C3: [setStrategy] with the persisted name returns [Promise.resolve()]
    and leaves the world, its trace of hook calls included, as it was;
    with another name it persists the name and then runs [mounted()] in a
    world whose active strategy is the registry entry of that name, whose
    [mounted] hook, when it has one, is the next call made. *)
Theorem setStrategy_same_or_switch this name w :
  (Storage.getUniversal "strategy" w = VStr name →
     setStrategy this name w = (w, Normal (Promise_resolve VUndefined))
     ∧ final (setStrategy this name) w = w)
  ∧ (Storage.getUniversal "strategy" w ≠ VStr name →
     let w' := Storage.setUniversal "strategy" (VStr name) w in
     setStrategy this name w = mounted this [] w'
     ∧ Storage.getUniversal "strategy" w' = VStr name
     ∧ strategy this w' = strategies this !! name
     ∧ ∀ s f, strategies this !! name = Some s → s_mounted s = Some f →
         setStrategy this name w
         = match f [] (emit (HookCall "mounted" []) w') with
           | (w1, Normal p) => (w1, Normal (catch_ p (on_error this "mounted")))
           | (w1, Throw e) => (w1, Throw e)
           end).
Proof.
  split.
  - intros Hcur.
    assert (Heq : setStrategy this name w
                  = (w, Normal (Promise_resolve VUndefined))).
    { unfold setStrategy, bind, gets.
      by rewrite (proj2 (strict_eq_str_spec name _) Hcur). }
    split; [done|]. unfold final. by rewrite Heq.
  - intros Hcur w'.
    assert (Hne : strict_eq_str name (Storage.getUniversal "strategy" w) = false).
    { destruct (strict_eq_str _ _) eqn:E; [|done].
      by apply strict_eq_str_spec in E. }
    assert (Heq : setStrategy this name w = mounted this [] w').
    { unfold setStrategy, bind at 1, gets. rewrite Hne.
      unfold bind at 1, modify. done. }
    repeat split.
    + done.
    + unfold w', Storage.getUniversal, Storage.setUniversal, with_state,
        with_universal. cbn. by rewrite lookup_insert_eq.
    + apply strategy_after_setStrategy.
    + intros s f Hs Hf. rewrite Heq. unfold mounted, bind at 1.
      assert (Hs' : strategy this w' = Some s)
        by (unfold w'; by rewrite strategy_after_setStrategy).
      rewrite (strategy_hook_some _ _ _ _ _ Hs'), Hf.
      unfold bind at 1, call_hook, bind at 1, modify.
      by destruct (f [] _) as [w1 [p|e]].
Qed.

Lemma setStrategy_same_or_switch_witness :
  let this := Fixtures.auth false
                (<["oauth" := Fixtures.no_hooks]>
                   {["local" := Fixtures.failing_login]}) in
  let w := Fixtures.world "local" (Fixtures.at_path "/") in
  let w' := Storage.setUniversal "strategy" (VStr "oauth") w in
  (setStrategy this "local" w = (w, Normal (Promise_resolve VUndefined))
   ∧ final (setStrategy this "local") w = w)
  ∧ setStrategy this "oauth" w = mounted this [] w'
  ∧ Storage.getUniversal "strategy" w' = VStr "oauth"
  ∧ strategy this w' = strategies this !! "oauth".
Proof.
  intros this w w'.
  pose proof (setStrategy_same_or_switch this "local" w) as [Hsame _].
  pose proof (setStrategy_same_or_switch this "oauth" w) as [_ Hswitch].
  split; [apply Hsame; reflexivity|].
  assert (Hne : Storage.getUniversal "strategy" w ≠ VStr "oauth")
    by (intros [=]).
  destruct (Hswitch Hne) as (H1 & H2 & H3 & _). auto.
Defined.

(** Switching to a strategy with a [mounted] hook calls that hook, once. *)
Example setStrategy_calls_mounted_of_new_strategy :
  let counting :=
    {| s_mounted := Some (fun _ => ret (Promise_resolve VUndefined));
       s_login := None; s_fetchUser := None; s_logout := None;
       s_reset := None |} in
  let this := Fixtures.auth false
                (<["oauth" := counting]> {["local" := counting]}) in
  let w := Fixtures.world "local" (Fixtures.at_path "/") in
  trace (final (setStrategy this "oauth") w) = [HookCall "mounted" []]
  ∧ trace (final (setStrategy this "local") w) = [].
Proof. cbv zeta. split; reflexivity. Qed.

(** *** Requests without a token *)

(** Whatever [isUnset] is, a token it reports unset makes [requestWith]
    return the rejected promise and leave the world as it was. *)
Lemma requestWith_without_token
    getProp isUnset this strategy_name endpoint defaults w :
  isUnset (Storage.getUniversal (token_key this strategy_name) w) = true →
  requestWith getProp isUnset this strategy_name endpoint defaults w
  = (w, Normal (Promise_reject (VError "Error" "No Token")))
  ∧ result (requestWith getProp isUnset this strategy_name endpoint defaults) w
    = Settled (Rejected (VError "Error" "No Token"))
  ∧ trace (final (requestWith getProp isUnset this strategy_name endpoint
                    defaults) w)
    = trace w.
Proof.
  intros Hunset.
  assert (Heq : requestWith getProp isUnset this strategy_name endpoint defaults w
                = (w, Normal (Promise_reject (VError "Error" "No Token")))).
  { unfold requestWith, bind at 1, getToken, gets. by rewrite Hunset. }
  unfold result, final. by rewrite Heq.
Qed.

(** C4, as the code has it: when the token stored for the strategy is
    unset, that is [undefined] (nothing stored) or [null] (what [reset]
    stores to clear it), [requestWith] returns a promise rejected with
    the error [No Token] and leaves the world as it was: no transport
    request is made, before or after. *)
Theorem requestWith_unset_token_is_rejected
    getProp this strategy_name endpoint defaults w :
  let token := Storage.getUniversal (token_key this strategy_name) w in
  let call := requestWith getProp Fixtures.isUnset_nullish this strategy_name
                endpoint defaults in
  token = VUndefined ∨ token = VNull →
  call w = (w, Normal (Promise_reject (VError "Error" "No Token")))
  ∧ result call w = Settled (Rejected (VError "Error" "No Token"))
  ∧ trace (final call w) = trace w.
Proof.
  intros token call Hunset.
  apply requestWith_without_token. fold token.
  by destruct Hunset as [-> | ->].
Qed.

Lemma requestWith_unset_token_is_rejected_witness :
  let this := Fixtures.auth false {["local" := Fixtures.no_hooks]} in
  let w := Fixtures.world "local" (Fixtures.at_path "/") in
  let w0 := (reset this [] (Storage.setUniversal "_token.local"
                              (VStr "Bearer abc") w)).1 in
  let call := requestWith Fixtures.getProp_own Fixtures.isUnset_nullish this
                (VStr "local") (VObj [("url", VStr "/api/user")]) VUndefined in
  (call w = (w, Normal (Promise_reject (VError "Error" "No Token")))
   ∧ result call w = Settled (Rejected (VError "Error" "No Token"))
   ∧ trace (final call w) = trace w)
  ∧ (call w0 = (w0, Normal (Promise_reject (VError "Error" "No Token")))
     ∧ result call w0 = Settled (Rejected (VError "Error" "No Token"))
     ∧ trace (final call w0) = trace w0).
Proof.
  intros this w w0 call. split.
  - apply (requestWith_unset_token_is_rejected Fixtures.getProp_own this
             (VStr "local") (VObj [("url", VStr "/api/user")]) VUndefined w).
    left. reflexivity.
  - apply (requestWith_unset_token_is_rejected Fixtures.getProp_own this
             (VStr "local") (VObj [("url", VStr "/api/user")]) VUndefined w0).
    right. reflexivity.
Defined.

(** C4 as stated fails for an empty token: the empty string is not unset,
    so the request is made, with an empty [Authorization] header, and
    nothing is rejected. *)
Lemma requestWith_empty_token_is_sent :
  let this := Fixtures.auth false {["local" := Fixtures.no_hooks]} in
  let w := Storage.setUniversal "_token.local" (VStr "")
             (Fixtures.world "local" (Fixtures.at_path "/")) in
  let call := requestWith Fixtures.getProp_own Fixtures.isUnset_nullish this
                (VStr "local") (VObj [("url", VStr "/api/user")]) VUndefined in
  Storage.getUniversal (token_key this (VStr "local")) w = VStr ""
  ∧ trace (final call w)
    = [TransportRequest
         (VObj [("url", VStr "/api/user");
                ("headers", VObj [("Authorization", VStr "")])])]
  ∧ result call w = Settled (Fulfilled (VObj []))
  ∧ result call w ≠ Settled (Rejected (VError "Error" "No Token")).
Proof.
  cbv zeta. repeat split; try reflexivity. intros H. vm_compute in H.
  discriminate H.
Qed.

(** With a token stored, the request goes out once, carrying the token. *)
Example requestWith_with_token :
  let this := Fixtures.auth false {["local" := Fixtures.no_hooks]} in
  let w := Storage.setUniversal "_token.local" (VStr "Bearer abc")
             (Fixtures.world "local" (Fixtures.at_path "/")) in
  let call := requestWith Fixtures.getProp_own Fixtures.isUnset_nullish this
                (VStr "local") (VObj [("url", VStr "/api/user")]) VUndefined in
  trace (final call w)
  = [TransportRequest
       (VObj [("url", VStr "/api/user");
              ("headers", VObj [("Authorization", VStr "Bearer abc")])])]
  ∧ result call w = Settled (Fulfilled (VObj [])).
Proof. cbv zeta. split; reflexivity. Qed.

(** *** Redirects *)

Section Redirect.

Variable isRelativeURL : value → bool.
Variable isSameURL : value → value → bool.
Variable this : Auth.

Lemma getUniversal_setUniversal k v w :
  Storage.getUniversal k (Storage.setUniversal k v w) = v.
Proof.
  unfold Storage.getUniversal, Storage.setUniversal, with_state,
    with_universal. cbn. by rewrite lookup_insert_eq.
Qed.

(** Without a redirect map, or without a destination for the event,
    [redirect] does nothing. *)
Lemma redirect_disabled name noRouter w :
  redirect_map (options this) = None →
  redirect isRelativeURL isSameURL this name noRouter w = (w, Normal tt).
Proof. intros H. unfold redirect. by rewrite H. Qed.

Lemma redirect_no_destination name noRouter w :
  truthy (configured_destination this name) = false →
  redirect isRelativeURL isSameURL this name noRouter w = (w, Normal tt).
Proof.
  unfold configured_destination, redirect.
  destruct (redirect_map (options this)) as [m|]; [|done].
  intros Hto. unfold bind, gets. by rewrite Hto.
Qed.

(** An enabled redirect with a destination: the rewrites, then the
    navigation to the resolved destination unless that is where we are. *)
Lemma redirect_enabled name noRouter w :
  truthy (configured_destination this name) = true →
  redirect isRelativeURL isSameURL this name noRouter w
  = (let to := resolved_destination isRelativeURL this name w in
     let w1 := rewritten isRelativeURL isSameURL this name w in
     if isSameURL to (redirect_from this w) then w1
     else emit (nav this noRouter to) w1,
     Normal tt).
Proof.
  unfold configured_destination, resolved_destination, rewritten, redirect,
    configured_destination.
  destruct (redirect_map (options this)) as [m|]; [|done].
  intros Hto. unfold bind at 1, gets. rewrite Hto. cbn [negb].
  unfold nav.
  destruct (rewriteRedirects (options this)); cbn [andb].
  - unfold apply_rewrites.
    destruct (String.eqb name "login") eqn:Hlogin.
    + apply String.eqb_eq in Hlogin. subst name. cbn [String.eqb Ascii.eqb
        Bool.eqb andb].
      unfold bind, modify, ret.
      destruct (isRelativeURL (redirect_from this w)
                && negb (isSameURL _ _)); cbn;
        destruct (isSameURL _ _), (browser this), noRouter; reflexivity.
    + cbn [andb]. unfold bind at 1, bind at 1, ret at 1.
      destruct (String.eqb name "home").
      * unfold bind, gets, modify, ret. cbn [andb].
        destruct (isRelativeURL _), (isSameURL _ _), (browser this), noRouter;
          reflexivity.
      * unfold bind, ret. cbn [andb].
        destruct (isSameURL _ _), (browser this), noRouter; reflexivity.
  - unfold bind, ret.
    destruct (isSameURL _ _), (browser this), noRouter; reflexivity.
Qed.

Lemma trace_rewritten name w :
  trace (rewritten isRelativeURL isSameURL this name w) = trace w.
Proof.
  unfold rewritten.
  repeat match goal with |- context [if ?b then _ else _] => destruct b end;
    reflexivity.
Qed.

Lemma rewritten_home w :
  rewriteRedirects (options this) = true →
  rewritten isRelativeURL isSameURL this "home" w
  = Storage.setUniversal "redirect" VNull w.
Proof. intros H. unfold rewritten. by rewrite H. Qed.

(** C6: whenever the resolved destination is the same URL as [from],
    [redirect] adds nothing to the trace: neither the router redirect nor
    the page replace is called. *)
Theorem redirect_same_url_no_navigation name noRouter w :
  isSameURL (resolved_destination isRelativeURL this name w)
            (redirect_from this w) = true →
  trace (redirect isRelativeURL isSameURL this name noRouter w).1 = trace w.
Proof.
  intros Hsame.
  destruct (truthy (configured_destination this name)) eqn:Hto.
  - rewrite (redirect_enabled _ _ _ Hto). cbn zeta. rewrite Hsame. cbn [fst].
    apply trace_rewritten.
  - by rewrite (redirect_no_destination _ _ _ Hto).
Qed.

(** C10: with rewrites enabled and a destination for [home], the persisted
    return-to target is [null] after [redirect('home')], whether or not
    the navigation took place. *)
Theorem redirect_home_clears_return_to noRouter w :
  rewriteRedirects (options this) = true →
  truthy (configured_destination this "home") = true →
  Storage.getUniversal "redirect"
    (redirect isRelativeURL isSameURL this "home" noRouter w).1 = VNull.
Proof.
  intros Hrw Hto. rewrite (redirect_enabled _ _ _ Hto). cbn zeta.
  rewrite (rewritten_home _ Hrw).
  destruct (isSameURL _ _); cbn [fst]; apply getUniversal_setUniversal.
Qed.

(** C5: a login redirect from [/secret] stores [/secret]; the next home
    redirect goes to [/secret] and clears the stored value; the home
    redirect after that goes to the configured destination. *)
Theorem return_to_is_used_once lg hm noRouter w r2 r3 :
  rewriteRedirects (options this) = true →
  configured_destination this "login" = lg → truthy lg = true →
  configured_destination this "home" = hm → truthy hm = true →
  route w = {| path := "/secret"; fullPath := "/secret" |} →
  isRelativeURL (VStr "/secret") = true →
  isRelativeURL VNull = false →
  isSameURL lg (VStr "/secret") = false →
  isSameURL (VStr "/secret") (redirect_from this (with_route r2 w)) = false →
  isSameURL hm (redirect_from this (with_route r3 w)) = false →
  let w1 := (redirect isRelativeURL isSameURL this "login" noRouter w).1 in
  let w2 := (redirect isRelativeURL isSameURL this "home" noRouter
               (with_route r2 w1)).1 in
  let w3 := (redirect isRelativeURL isSameURL this "home" noRouter
               (with_route r3 w2)).1 in
  Storage.getUniversal "redirect" w1 = VStr "/secret"
  ∧ trace w1 = (trace w ++ [nav this noRouter lg])%list
  ∧ trace w2 = (trace w1 ++ [nav this noRouter (VStr "/secret")])%list
  ∧ Storage.getUniversal "redirect" w2 = VNull
  ∧ trace w3 = (trace w2 ++ [nav this noRouter hm])%list.
Proof.
  intros Hrw Hlg Hlgt Hhm Hhmt Hroute Hrel Hnull Hdiff Hdiff2 Hdiff3.
  assert (Hfrom : redirect_from this w = VStr "/secret").
  { unfold redirect_from. rewrite Hroute. cbn. by destruct (fullPathRedirect _). }
  assert (Hlgt' : truthy (configured_destination this "login") = true)
    by by rewrite Hlg.
  assert (Hhmt' : truthy (configured_destination this "home") = true)
    by by rewrite Hhm.
  intros w1 w2 w3.
  assert (Hw1 : w1 = emit (nav this noRouter lg)
                       (Storage.setUniversal "redirect" (VStr "/secret") w)).
  { unfold w1. rewrite (redirect_enabled _ _ _ Hlgt'). cbn zeta.
    unfold resolved_destination, rewritten. rewrite Hrw, Hlg, Hfrom.
    cbn [String.eqb Ascii.eqb Bool.eqb andb]. by rewrite Hdiff, Hrel. }
  assert (Hw2 : w2 = emit (nav this noRouter (VStr "/secret"))
                       (Storage.setUniversal "redirect" VNull
                          (with_route r2 w1))).
  { unfold w2. rewrite (redirect_enabled _ _ _ Hhmt'). cbn zeta.
    rewrite (rewritten_home _ Hrw).
    unfold resolved_destination. rewrite Hrw.
    cbn [String.eqb Ascii.eqb Bool.eqb andb].
    assert (Hstored : Storage.getUniversal "redirect" (with_route r2 w1)
                      = VStr "/secret").
    { rewrite Hw1. apply getUniversal_setUniversal. }
    rewrite Hstored, Hrel.
    change (redirect_from this (with_route r2 w1))
      with (redirect_from this (with_route r2 w)).
    by rewrite Hdiff2. }
  assert (Hw3 : w3 = emit (nav this noRouter hm)
                       (Storage.setUniversal "redirect" VNull
                          (with_route r3 w2))).
  { unfold w3. rewrite (redirect_enabled _ _ _ Hhmt'). cbn zeta.
    rewrite (rewritten_home _ Hrw).
    unfold resolved_destination. rewrite Hrw, Hhm.
    cbn [String.eqb Ascii.eqb Bool.eqb andb].
    assert (Hstored : Storage.getUniversal "redirect" (with_route r3 w2)
                      = VNull).
    { rewrite Hw2. apply getUniversal_setUniversal. }
    rewrite Hstored, Hnull.
    change (redirect_from this (with_route r3 w2))
      with (redirect_from this (with_route r3 w)).
    by rewrite Hdiff3. }
  repeat split.
  - rewrite Hw1. apply getUniversal_setUniversal.
  - by rewrite Hw1.
  - by rewrite Hw2.
  - rewrite Hw2. apply getUniversal_setUniversal.
  - by rewrite Hw3.
Qed.

End Redirect.

Lemma return_to_is_used_once_witness :
  let this := Fixtures.auth false ∅ in
  let go name w :=
    (redirect Fixtures.isRelativeURL_slash Fixtures.isSameURL_path this
       name false w).1 in
  let w := Fixtures.world "local" (Fixtures.at_path "/secret") in
  let w1 := go "login" w in
  let w2 := go "home" (with_route (Fixtures.at_path "/login") w1) in
  let w3 := go "home" (with_route (Fixtures.at_path "/secret") w2) in
  Storage.getUniversal "redirect" w1 = VStr "/secret"
  ∧ trace w1 = (trace w ++ [nav this false (VStr "/login")])%list
  ∧ trace w2 = (trace w1 ++ [nav this false (VStr "/secret")])%list
  ∧ Storage.getUniversal "redirect" w2 = VNull
  ∧ trace w3 = (trace w2 ++ [nav this false (VStr "/")])%list.
Proof.
  intros this go w.
  apply (return_to_is_used_once Fixtures.isRelativeURL_slash
           Fixtures.isSameURL_path this (VStr "/login") (VStr "/") false w
           (Fixtures.at_path "/login") (Fixtures.at_path "/secret"));
    reflexivity.
Defined.

(** The same scenario, evaluated. *)
Example return_to_scenario :
  let this := Fixtures.auth false ∅ in
  let go name w :=
    (redirect Fixtures.isRelativeURL_slash Fixtures.isSameURL_path this
       name false w).1 in
  let w1 := go "login" (Fixtures.world "local" (Fixtures.at_path "/secret")) in
  let w2 := go "home" (with_route (Fixtures.at_path "/login") w1) in
  let w3 := go "home" (with_route (Fixtures.at_path "/secret") w2) in
  trace w3 = [RouterRedirect (VStr "/login"); RouterRedirect (VStr "/secret");
              RouterRedirect (VStr "/")].
Proof. reflexivity. Qed.

Lemma redirect_same_url_no_navigation_witness :
  let this := Fixtures.auth false ∅ in
  let w := Fixtures.world "local" (Fixtures.at_path "/") in
  trace (redirect Fixtures.isRelativeURL_slash Fixtures.isSameURL_path this
           "home" false w).1 = trace w.
Proof.
  intros this w.
  apply (redirect_same_url_no_navigation Fixtures.isRelativeURL_slash
           Fixtures.isSameURL_path this "home" false w).
  reflexivity.
Defined.

Lemma redirect_home_clears_return_to_witness :
  let this := Fixtures.auth false ∅ in
  let w := Storage.setUniversal "redirect" (VStr "/secret")
             (Fixtures.world "local" (Fixtures.at_path "/secret")) in
  Storage.getUniversal "redirect"
    (redirect Fixtures.isRelativeURL_slash Fixtures.isSameURL_path this
       "home" false w).1 = VNull.
Proof.
  intros this w.
  apply (redirect_home_clears_return_to Fixtures.isRelativeURL_slash
           Fixtures.isSameURL_path this false w);
    reflexivity.
Defined.

(** In that world the home redirect is aborted, the stored target being
    the current path, and the target is gone all the same. *)
Example aborted_home_redirect_consumes_return_to :
  let this := Fixtures.auth false ∅ in
  let w := Storage.setUniversal "redirect" (VStr "/secret")
             (Fixtures.world "local" (Fixtures.at_path "/secret")) in
  let w' := (redirect Fixtures.isRelativeURL_slash Fixtures.isSameURL_path
               this "home" false w).1 in
  Storage.getUniversal "redirect" w = VStr "/secret"
  ∧ trace w' = []
  ∧ Storage.getUniversal "redirect" w' = VNull.
Proof. cbv zeta. repeat split; reflexivity. Qed.

(** C9 fails on the code: with [fullPathRedirect] enabled [from] is the
    plain path, and with it disabled [from] is the full path, so that a
    login redirect from [/secret?tab=2] remembers [/secret] when the flag
    is on and [/secret?tab=2] when it is off. *)
Theorem redirect_from_flag_is_swapped :
  let r := {| path := "/secret"; fullPath := "/secret?tab=2" |} in
  let w := Fixtures.world "local" r in
  let go full :=
    (redirect Fixtures.isRelativeURL_slash Fixtures.isSameURL_path
       (Fixtures.auth full ∅) "login" false w).1 in
  redirect_from (Fixtures.auth true ∅) w = VStr "/secret"
  ∧ redirect_from (Fixtures.auth false ∅) w = VStr "/secret?tab=2"
  ∧ Storage.getUniversal "redirect" (go true) = VStr "/secret"
  ∧ Storage.getUniversal "redirect" (go false) = VStr "/secret?tab=2".
Proof. cbv zeta. repeat split; reflexivity. Qed.

(** In general [from] is the path exactly when the flag is on. *)
Lemma redirect_from_spec this w :
  redirect_from this w
  = VStr (if fullPathRedirect (options this)
          then path (route w) else fullPath (route w)).
Proof. unfold redirect_from. by destruct (fullPathRedirect _). Qed.

(** *** Scopes *)

Lemma includes_elem_of scope items :
  includes scope (VArr items) = true ↔ VStr scope ∈ items.
Proof.
  cbn. rewrite existsb_exists, list_elem_of_In. split.
  - intros (v & Hin & Heq). apply strict_eq_str_spec in Heq. by subst v.
  - intros Hin. exists (VStr scope). split; [done|].
    by apply strict_eq_str_spec.
Qed.

(** C7: [hasScope] is [undefined] when the claim is falsy; when the claim
    is an array it is the boolean telling whether [scope] is among its
    items; otherwise it is the truthiness of the sub-claim named [scope]. *)
Theorem hasScope_cases getProp this scope w :
  let claim := scope_claim getProp this w in
  (truthy claim = false → hasScope getProp this scope w = VUndefined)
  ∧ (∀ items, claim = VArr items →
       ∃ b, hasScope getProp this scope w = VBool b
            ∧ (b = true ↔ VStr scope ∈ items))
  ∧ (truthy claim = true → isArray claim = false →
       hasScope getProp this scope w
       = VBool (truthy (getProp claim (VStr scope)))).
Proof.
  intros claim. unfold hasScope. fold (scope_claim getProp this w).
  fold claim. repeat split.
  - by intros ->.
  - intros items Hitems. rewrite Hitems. cbn.
    exists (existsb (strict_eq_str scope) items). split; [done|].
    apply (includes_elem_of scope items).
  - by intros -> ->.
Qed.

Lemma hasScope_cases_witness :
  let this := Fixtures.auth false ∅ in
  let admin_of user :=
    hasScope Fixtures.getProp_own this "admin" (Fixtures.world_of_user user) in
  admin_of VNull = VUndefined
  ∧ (∃ b, admin_of (VObj [("scope", VArr [VStr "user"; VStr "admin"])])
          = VBool b
          ∧ (b = true ↔ VStr "admin" ∈ [VStr "user"; VStr "admin"]))
  ∧ admin_of (VObj [("scope", VObj [("admin", VNum 1)])])
    = VBool (truthy (VNum 1)).
Proof.
  intros this admin_of.
  pose proof (hasScope_cases Fixtures.getProp_own this "admin"
                (Fixtures.world_of_user VNull)) as (Hnone & _ & _).
  pose proof (hasScope_cases Fixtures.getProp_own this "admin"
                (Fixtures.world_of_user
                   (VObj [("scope", VArr [VStr "user"; VStr "admin"])])))
    as (_ & Hlist & _).
  pose proof (hasScope_cases Fixtures.getProp_own this "admin"
                (Fixtures.world_of_user
                   (VObj [("scope", VObj [("admin", VNum 1)])])))
    as (_ & _ & Hmap).
  split; [|split].
  - apply Hnone. reflexivity.
  - apply Hlist. reflexivity.
  - apply Hmap; reflexivity.
Defined.

(** The cases of the claim, evaluated. *)
Example hasScope_examples :
  let this := Fixtures.auth false ∅ in
  let admin_of user :=
    hasScope Fixtures.getProp_own this "admin" (Fixtures.world_of_user user) in
  admin_of VNull = VUndefined
  ∧ admin_of (VObj [("name", VStr "ada")]) = VUndefined
  ∧ admin_of (VObj [("scope", VArr [VStr "user"; VStr "admin"])]) = VBool true
  ∧ admin_of (VObj [("scope", VArr [VStr "user"])]) = VBool false
  ∧ admin_of (VObj [("scope", VArr [])]) = VBool false
  ∧ admin_of (VObj [("scope", VObj [("admin", VBool true)])]) = VBool true
  ∧ admin_of (VObj [("scope", VObj [("user", VBool true)])]) = VBool false.
Proof. cbv zeta. repeat split; reflexivity. Qed.

(** *** The [loggedIn] invariant *)

(** Rules for code that keeps a property. *)
Section Keeps.

Context (P : World → Prop).

Lemma keeps_ret {A} (Q : A → Prop) (a : A) : Q a → keeps P Q (ret a).
Proof. intros Ha w Pw. split; [done|]. intros a' [= <-]. done. Qed.

Lemma keeps_throw {A} (Q : A → Prop) e : keeps P Q (throw e).
Proof. intros w Pw. split; [done|]. intros a' [=]. Qed.

Lemma keeps_gets {A} (Q : A → Prop) (f : World → A) :
  (∀ w, Q (f w)) → keeps P Q (gets f).
Proof. intros Hf w Pw. split; [done|]. intros a' [= <-]. apply Hf. Qed.

Lemma keeps_modify (f : World → World) :
  (∀ w, P w → P (f w)) → keeps P (fun _ => True) (modify f).
Proof. intros Hf w Pw. split; [by apply Hf|done]. Qed.

Lemma keeps_bind {A B} (Q : A → Prop) (R : B → Prop) c (k : A → Sync B) :
  keeps P Q c → (∀ a, Q a → keeps P R (k a)) → keeps P R (bind c k).
Proof.
  intros Hc Hk w Pw. unfold bind.
  destruct (Hc w Pw) as [Pw1 Hq].
  destruct (c w) as [w1 [a|e]]; cbn in *.
  - apply Hk; [by apply Hq|done].
  - split; [done|]. intros b [=].
Qed.

Lemma keeps_weaken {A} (Q Q' : A → Prop) c :
  (∀ a, Q a → Q' a) → keeps P Q c → keeps P Q' c.
Proof. intros HQ Hc w Pw. destruct (Hc w Pw). split; eauto. Qed.

Lemma keeps_resolve v : keeps_promise P (Promise_resolve v).
Proof. by intros w Pw. Qed.

Lemma keeps_reject e : keeps_promise P (Promise_reject e).
Proof. by intros w Pw. Qed.

Lemma keeps_run_handler h x :
  keeps_handler P h → keeps_promise P (run_handler h x).
Proof.
  intros Hh w Pw. unfold run_handler.
  destruct (Hh x w Pw) as [Pw1 Hq].
  destruct (h x w) as [w1 [q|e]]; cbn in *; [|done].
  by apply (Hq q).
Qed.

Lemma keeps_then p h :
  keeps_promise P p → keeps_handler P h → keeps_promise P (then_ p h).
Proof.
  intros Hp Hh w Pw. unfold then_. specialize (Hp w Pw).
  destruct (p w) as [w1 [v|e]]; cbn in *; [|done].
  by apply keeps_run_handler.
Qed.

Lemma keeps_catch p h :
  keeps_promise P p → keeps_handler P h → keeps_promise P (catch_ p h).
Proof.
  intros Hp Hh w Pw. unfold catch_. specialize (Hp w Pw).
  destruct (p w) as [w1 [v|e]]; cbn in *; [done|].
  by apply keeps_run_handler.
Qed.

Lemma keeps_detached p : keeps_promise P p → keeps_promise P (detached p).
Proof. intros Hp w Pw. by apply Hp. Qed.

Lemma keeps_final c w :
  keeps P (keeps_promise P) c → P w → P (final c w).
Proof.
  intros Hc Pw. unfold final. destruct (Hc w Pw) as [Pw1 Hq].
  destruct (c w) as [w1 [p|e]]; cbn in *; [|done].
  by apply (Hq p).
Qed.

End Keeps.

Create HintDb keeps.
#[local] Hint Resolve keeps_resolve keeps_reject : keeps.

Lemma inv_same_state w w' :
  state w' = state w → logged_in_inv w → logged_in_inv w'.
Proof. unfold logged_in_inv, state_field. by intros ->. Qed.

Lemma inv_setState k v w :
  k ≠ "user" → k ≠ "loggedIn" →
  logged_in_inv w → logged_in_inv (Storage.setState k v w).
Proof.
  intros Hu Hl. unfold logged_in_inv. rewrite !state_field_setState.
  by repeat case_decide.
Qed.

Lemma inv_setUniversal k v w :
  k ≠ "user" → k ≠ "loggedIn" →
  logged_in_inv w → logged_in_inv (Storage.setUniversal k v w).
Proof. intros Hu Hl Hw. by apply (inv_setState k v (with_universal _ w)). Qed.

Lemma inv_syncUniversal k v w :
  k ≠ "user" → k ≠ "loggedIn" →
  logged_in_inv w → logged_in_inv (Storage.syncUniversal k v w).
Proof.
  intros Hu Hl Hw. unfold Storage.syncUniversal.
  destruct (not_nullish (if not_nullish _ then _ else _)); [|done].
  by apply inv_setUniversal.
Qed.

Lemma setUser_fields user w :
  state_field "loggedIn" (setUser user w).1 = VBool (truthy user)
  ∧ state_field "user" (setUser user w).1 = user.
Proof.
  unfold setUser, bind, modify. cbn. rewrite !state_field_setState.
  by repeat case_decide.
Qed.

Lemma inv_setUser user w : logged_in_inv (setUser user w).1.
Proof.
  unfold logged_in_inv. destruct (setUser_fields user w) as [-> ->]. done.
Qed.

Section Invariant.

Variable getProp : value → value → value.
Variable isUnset : value → bool.
Variable isRelativeURL : value → bool.
Variable isSameURL : value → value → bool.
Variable this : Auth.

Hypothesis plugged : well_behaved logged_in_inv this.
Hypothesis apart : token_keys_apart this.

Local Abbreviation inv := logged_in_inv.
Local Abbreviation ok := (keeps inv (keeps_promise inv)).


Lemma keeps_call_each fns e p :
  Forall (keeps_listener inv) fns → keeps inv (fun _ => True) (call_each fns e p).
Proof.
  induction 1 as [|fn fns Hfn _ IH]; cbn.
  - by apply keeps_ret.
  - eapply keeps_bind; [apply Hfn|]. intros _ _. apply IH.
Qed.

Lemma keeps_callOnError e p : keeps inv (fun _ => True) (callOnError this e p).
Proof.
  unfold callOnError.
  eapply keeps_bind; [apply keeps_modify|intros _ _].
  { intros w. by apply inv_same_state. }
  eapply keeps_bind; [apply keeps_modify|intros _ _].
  { intros w. by apply inv_same_state. }
  apply keeps_call_each, plugged.
Qed.

Lemma keeps_on_error method : keeps_handler inv (on_error this method).
Proof.
  intros x. unfold on_error.
  eapply keeps_bind; [apply keeps_callOnError|intros _ _].
  apply keeps_ret. auto with keeps.
Qed.

Lemma keeps_strategy_hook name hook :
  (∀ k s, strategies this !! k = Some s → keeps_hook inv (hook s)) →
  keeps inv (keeps_hook inv) (strategy_hook this name hook).
Proof.
  intros Hhook w Pw. unfold strategy_hook.
  destruct (strategy this w) as [s|] eqn:Hs; cbn.
  - split; [done|]. intros o [= <-]. by eapply Hhook.
  - split; [done|]. intros o [=].
Qed.

Lemma keeps_call_hook name f args :
  keeps_hook inv (Some f) → ok (call_hook name f args).
Proof.
  intros Hf. unfold call_hook.
  eapply keeps_bind; [apply keeps_modify|intros _ _].
  { intros w. by apply inv_same_state. }
  by apply Hf.
Qed.

(** The common shape of the lifecycle operations: read the hook, fall
    back without it, call it and catch with it. *)
Lemma keeps_lifecycle name hook fallback args method :
  (∀ k s, strategies this !! k = Some s → keeps_hook inv (hook s)) →
  ok fallback →
  ok (let! h := strategy_hook this name hook in
      match h with
      | None => fallback
      | Some f =>
          let! p := call_hook name f args in
          ret (catch_ p (on_error this method))
      end).
Proof.
  intros Hhook Hfb.
  eapply keeps_bind; [by apply keeps_strategy_hook|].
  intros [f|] Hf; [|done].
  eapply keeps_bind; [by apply keeps_call_hook|].
  intros p Hp. apply keeps_ret.
  apply keeps_catch; [done|apply keeps_on_error].
Qed.

Lemma keeps_fetchUser args : ok (fetchUser this args).
Proof.
  apply keeps_lifecycle; [apply plugged|].
  apply keeps_ret. auto with keeps.
Qed.

Lemma keeps_fetchUserOnce args : ok (fetchUserOnce this args).
Proof.
  unfold fetchUserOnce.
  eapply keeps_bind; [by apply (keeps_gets _ (fun _ => True))|].
  intros user _. destruct (negb (truthy user)).
  - apply keeps_fetchUser.
  - apply keeps_ret. auto with keeps.
Qed.

Lemma keeps_mounted args : ok (mounted this args).
Proof. apply keeps_lifecycle; [apply plugged|apply keeps_fetchUserOnce]. Qed.

Lemma keeps_setUser user : keeps inv (fun _ => True) (setUser user).
Proof. intros w _. split; [apply inv_setUser|done]. Qed.

Lemma keeps_setToken name token :
  keeps inv (fun _ => True) (setToken this name token).
Proof.
  apply keeps_modify. intros w. by apply inv_setUniversal; apply apart.
Qed.

Lemma keeps_reset args : ok (reset this args).
Proof.
  apply keeps_lifecycle; [apply plugged|].
  eapply keeps_bind; [apply keeps_setUser|intros _ _].
  eapply keeps_bind; [by apply (keeps_gets _ (fun _ => True))|intros name _].
  eapply keeps_bind; [apply keeps_setToken|intros _ _].
  apply keeps_ret. auto with keeps.
Qed.

Lemma keeps_logout args : ok (logout this args).
Proof.
  apply keeps_lifecycle; [apply plugged|].
  eapply keeps_bind; [apply keeps_reset|].
  intros p Hp. apply keeps_ret. by apply keeps_detached.
Qed.

Lemma keeps_busy b :
  keeps inv (fun _ => True) (modify (Storage.setState "busy" (VBool b))).
Proof. apply keeps_modify. intros w. by apply inv_setState. Qed.

Lemma keeps_wrapLogin p : keeps_promise inv p → ok (wrapLogin p).
Proof.
  intros Hp. unfold wrapLogin.
  eapply keeps_bind; [apply keeps_busy|intros _ _].
  eapply keeps_bind; [apply keeps_modify|intros _ _].
  { intros w. by apply inv_same_state. }
  apply keeps_ret. apply keeps_catch; [apply keeps_then; [done|]|].
  - intros _. eapply keeps_bind; [apply keeps_busy|intros _ _].
    apply keeps_ret. auto with keeps.
  - intros e. eapply keeps_bind; [apply keeps_busy|intros _ _].
    apply keeps_ret. auto with keeps.
Qed.

Lemma keeps_login args : ok (login this args).
Proof.
  unfold login.
  eapply keeps_bind; [apply keeps_strategy_hook, plugged|].
  intros [f|] Hf; [|apply keeps_ret; auto with keeps].
  eapply keeps_bind; [by apply keeps_call_hook|].
  intros p Hp.
  eapply keeps_bind; [by apply keeps_wrapLogin|].
  intros q Hq. apply keeps_ret.
  apply keeps_catch; [done|apply keeps_on_error].
Qed.

Lemma keeps_setStrategy name : ok (setStrategy this name).
Proof.
  unfold setStrategy.
  eapply keeps_bind; [by apply (keeps_gets _ (fun _ => True))|].
  intros current _. destruct (strict_eq_str name current).
  - apply keeps_ret. auto with keeps.
  - eapply keeps_bind; [apply keeps_modify|intros _ _; apply keeps_mounted].
    intros w. by apply inv_setUniversal.
Qed.

Lemma keeps_loginWith name args : ok (loginWith this name args).
Proof.
  unfold loginWith.
  eapply keeps_bind; [apply keeps_setStrategy|].
  intros p Hp. apply keeps_ret. apply keeps_then; [done|].
  intros _. apply keeps_login.
Qed.

Lemma keeps_init : ok (init this).
Proof.
  unfold init.
  eapply keeps_bind; [apply keeps_modify|intros _ _; apply keeps_mounted].
  intros w. by apply inv_syncUniversal.
Qed.

Lemma keeps_read_prop k v : keeps inv (fun _ => True) (read_prop k v).
Proof.
  unfold read_prop. destruct (not_nullish v).
  - by apply keeps_ret.
  - apply keeps_throw.
Qed.

Lemma keeps_request endpoint defaults : ok (request getProp this endpoint defaults).
Proof.
  unfold request.
  eapply keeps_bind; [apply keeps_modify|intros _ _].
  { intros w. by apply inv_same_state. }
  apply keeps_ret. apply keeps_catch; [apply keeps_then|].
  - apply plugged.
  - intros response.
    eapply keeps_bind; [apply keeps_read_prop|intros propertyName _].
    eapply keeps_bind; [apply keeps_read_prop|intros data _].
    destruct (truthy propertyName); apply keeps_ret; auto with keeps.
  - intros e.
    eapply keeps_bind; [apply keeps_callOnError|intros _ _].
    apply keeps_ret. auto with keeps.
Qed.

Lemma keeps_requestWith name endpoint defaults :
  ok (requestWith getProp isUnset this name endpoint defaults).
Proof.
  unfold requestWith.
  eapply keeps_bind; [by apply (keeps_gets _ (fun _ => True))|].
  intros token _. destruct (isUnset token).
  - apply keeps_ret. auto with keeps.
  - eapply keeps_bind with (Q := fun _ => True).
    + destruct (negb (truthy (prop _ _))); [|by apply keeps_ret].
      unfold set_Authorization.
      destruct (assoc _ _); by (apply keeps_ret || apply keeps_throw).
    + intros headers _. apply keeps_request.
Qed.

Lemma keeps_redirect name noRouter :
  keeps inv (fun _ => True) (redirect isRelativeURL isSameURL this name noRouter).
Proof.
  intros w Pw. split; [|done].
  destruct (truthy (configured_destination this name)) eqn:Hto.
  - rewrite (redirect_enabled _ _ _ _ _ _ Hto). cbn zeta.
    assert (Hrw : inv (rewritten isRelativeURL isSameURL this name w)).
    { unfold rewritten.
      repeat match goal with
             | |- context [if ?b then _ else _] => destruct b
             end; try done; by apply inv_setUniversal. }
    by destruct (isSameURL _ _).
  - by rewrite (redirect_no_destination _ _ _ _ _ _ Hto).
Qed.

Lemma exec_keeps_inv op w :
  inv w → inv (exec getProp isUnset isRelativeURL isSameURL this op w).
Proof.
  intros Pw. destruct op; cbn [exec].
  - by apply keeps_final; [apply keeps_init|].
  - by apply keeps_final; [apply keeps_setStrategy|].
  - by apply keeps_final; [apply keeps_mounted|].
  - by apply keeps_final; [apply keeps_loginWith|].
  - by apply keeps_final; [apply keeps_login|].
  - by apply keeps_final; [apply keeps_fetchUser|].
  - by apply keeps_final; [apply keeps_fetchUserOnce|].
  - by apply keeps_final; [apply keeps_logout|].
  - by apply keeps_final; [apply keeps_reset|].
  - apply inv_setUser.
  - done.
  - by apply keeps_setToken.
  - unfold syncToken, modify. cbn.
    apply inv_syncUniversal; [apply apart|apply apart|done].
  - by apply keeps_final; [apply keeps_request|].
  - by apply keeps_final; [apply keeps_requestWith|].
  - by apply keeps_callOnError.
  - by apply keeps_redirect.
  - done.
Qed.

End Invariant.

(** C2, as the code has it: after [setUser(u)] the state has [user = u]
    and [loggedIn = Boolean(u)], which is [u != null] for every [u] that
    is [null], [undefined] or truthy; and [loggedIn = Boolean(user)], true
    of the initial state, holds after every operation of the controller
    started in a state where it holds, as long as the plugged-in code
    keeps it and no token key is the key of a user field. *)
Theorem loggedIn_is_Boolean_user
    getProp isUnset isRelativeURL isSameURL this u op w :
  (state_field "user" (setUser u w).1 = u
   ∧ state_field "loggedIn" (setUser u w).1 = VBool (truthy u)
   ∧ (truthy u = not_nullish u →
      state_field "loggedIn" (setUser u w).1 = VBool (not_nullish u)))
  ∧ (∀ s u r t, logged_in_inv
       {| state := initialState; universal := s; error := u; route := r;
          trace := t |})
  ∧ (well_behaved logged_in_inv this → token_keys_apart this →
     logged_in_inv w →
     logged_in_inv (exec getProp isUnset isRelativeURL isSameURL this op w)).
Proof.
  destruct (setUser_fields u w) as [Hl Hu]. repeat split; try done.
  - intros <-. done.
  - intros Hwb Hkeys. by apply exec_keeps_inv.
Qed.

Lemma fixture_well_behaved :
  well_behaved logged_in_inv
    (Fixtures.auth false {["local" := Fixtures.failing_login]}).
Proof.
  assert (Hs : ∀ k s,
             ({["local" := Fixtures.failing_login]} : gmap string Strategy) !! k
             = Some s → s = Fixtures.failing_login).
  { intros k s H. apply lookup_singleton_Some in H. by destruct H. }
  split; cbn.
  - intros k s H f args. rewrite (Hs k s H). discriminate.
  - intros k s H f args. rewrite (Hs k s H). intros [= <-].
    apply keeps_ret, keeps_reject.
  - intros k s H f args. rewrite (Hs k s H). discriminate.
  - intros k s H f args. rewrite (Hs k s H). discriminate.
  - intros k s H f args. rewrite (Hs k s H). discriminate.
  - constructor.
  - intros endpoint. apply keeps_resolve.
Qed.

Lemma fixture_token_keys_apart full registry :
  token_keys_apart (Fixtures.auth full registry).
Proof. intros name. split; discriminate. Qed.

Lemma loggedIn_is_Boolean_user_witness :
  let this := Fixtures.auth false {["local" := Fixtures.failing_login]} in
  let u := VObj [("name", VStr "ada")] in
  let w := Fixtures.world "local" (Fixtures.at_path "/") in
  state_field "loggedIn" (setUser u w).1 = VBool (not_nullish u)
  ∧ logged_in_inv
      (exec Fixtures.getProp_own Fixtures.isUnset_nullish
         Fixtures.isRelativeURL_slash Fixtures.isSameURL_path this
         (OpLogin []) w).
Proof.
  intros this u w.
  destruct (loggedIn_is_Boolean_user Fixtures.getProp_own
              Fixtures.isUnset_nullish Fixtures.isRelativeURL_slash
              Fixtures.isSameURL_path this u (OpLogin []) w)
    as ((_ & _ & Hnull) & _ & Hinv).
  split.
  - apply Hnull. reflexivity.
  - apply Hinv.
    + apply fixture_well_behaved.
    + apply fixture_token_keys_apart.
    + reflexivity.
Defined.

(** C2 as stated fails: [false] is not [null], yet after [setUser(false)]
    [loggedIn] is [false]; likewise for the empty string and for zero. *)
Lemma setUser_falsy_user_is_logged_out :
  let w := Fixtures.world "local" (Fixtures.at_path "/") in
  let loggedIn_after u := state_field "loggedIn" (setUser u w).1 in
  (not_nullish (VBool false) = true
   ∧ loggedIn_after (VBool false) = VBool false
   ∧ loggedIn_after (VBool false) ≠ VBool (not_nullish (VBool false)))
  ∧ loggedIn_after (VStr "") ≠ VBool (not_nullish (VStr ""))
  ∧ loggedIn_after (VNum 0) ≠ VBool (not_nullish (VNum 0)).
Proof. cbv zeta. repeat split; try reflexivity; intros [=]. Qed.

(** ** Further properties of the controller *)

(** *** Lifecycle hooks *)

(** A lifecycle operation on a strategy that has the hook: the hook is
    called; if it returns, its promise gets the broadcasting handler. *)
Lemma lifecycle_with_hook this h s f args w :
  h ≠ Login →
  strategy this w = Some s →
  hook_of h s = Some f →
  operation_of this h args w
  = match f args (emit (HookCall (method_of h) args) w) with
    | (w1, Normal p) =>
        (w1, Normal (catch_ p (on_error this (method_of h))))
    | (w1, Throw e) => (w1, Throw e)
    end.
Proof.
  intros Hh Hs Hf.
  destruct h; try done; cbn in Hf |- *;
    [unfold mounted|unfold fetchUser|unfold logout|unfold reset];
    unfold bind at 1; rewrite (strategy_hook_some _ _ _ _ _ Hs), Hf;
    unfold bind at 1, call_hook, bind at 1, modify;
    by destruct (f args _) as [w1 [p|e]].
Qed.

(** When the promise of a [mounted], [fetchUser], [logout] or [reset] hook
    rejects with [e], the controller records [e], broadcasts it under the
    name of the method and, the listeners having returned, fulfils its own
    promise with [undefined]. *)
Theorem lifecycle_rejection_is_swallowed this h s f args w w1 p w2 e w3 :
  h ≠ Login →
  strategy this w = Some s →
  hook_of h s = Some f →
  f args (emit (HookCall (method_of h) args) w) = (w1, Normal p) →
  p w1 = (w2, Rejected e) →
  call_each (errorListeners this) e (payload (method_of h))
    (emit (Broadcast e (payload (method_of h))) (with_error e w2))
    = (w3, Normal tt) →
  result (operation_of this h args) w = Settled (Fulfilled VUndefined)
  ∧ final (operation_of this h args) w = w3.
Proof.
  intros Hh Hs Hf Hp Hrej Hls. unfold result, final.
  rewrite (lifecycle_with_hook _ _ _ _ _ _ Hh Hs Hf), Hp.
  unfold catch_. rewrite Hrej.
  unfold run_handler, on_error, bind, ret.
  by rewrite callOnError_unfold, Hls.
Qed.

(** When that promise is fulfilled with [v], so is the promise of the
    controller, and the world is as the hook left it: nothing is
    broadcast. *)
Theorem lifecycle_value_is_passed_on this h s f args w w1 p w2 v :
  h ≠ Login →
  strategy this w = Some s →
  hook_of h s = Some f →
  f args (emit (HookCall (method_of h) args) w) = (w1, Normal p) →
  p w1 = (w2, Fulfilled v) →
  result (operation_of this h args) w = Settled (Fulfilled v)
  ∧ final (operation_of this h args) w = w2.
Proof.
  intros Hh Hs Hf Hp Hful. unfold result, final.
  rewrite (lifecycle_with_hook _ _ _ _ _ _ Hh Hs Hf), Hp.
  unfold catch_. by rewrite Hful.
Qed.

(** A hook that throws instead of returning a promise is not caught: the
    exception leaves the controller method as it is, the world is as the
    hook left it, nothing is broadcast, and [login] has not touched
    [busy]. *)
Theorem lifecycle_throw_is_not_caught this h s f args w w1 e :
  strategy this w = Some s →
  hook_of h s = Some f →
  f args (emit (HookCall (method_of h) args) w) = (w1, Throw e) →
  operation_of this h args w = (w1, Throw e)
  ∧ result (operation_of this h args) w = Threw e
  ∧ final (operation_of this h args) w = w1.
Proof.
  intros Hs Hf Hthrow.
  assert (Heq : operation_of this h args w = (w1, Throw e)).
  { assert (Hd : h = Login ∨ h ≠ Login)
      by (destruct h; (by left) || (by right)).
    destruct Hd as [->|Hh].
    - cbn in Hf, Hthrow |- *. unfold login, bind at 1.
      rewrite (strategy_hook_some _ _ _ _ _ Hs), Hf.
      unfold bind at 1, call_hook, bind at 1, modify. by rewrite Hthrow.
    - by rewrite (lifecycle_with_hook _ _ _ _ _ _ Hh Hs Hf), Hthrow. }
  unfold result, final. by rewrite Heq.
Qed.

Lemma lifecycle_rejection_is_swallowed_witness :
  let this := Fixtures.auth false
                {["local" := Fixtures.with_all_hooks Fixtures.rejecting]} in
  let w := Fixtures.world "local" (Fixtures.at_path "/") in
  result (operation_of this Logout []) w = Settled (Fulfilled VUndefined)
  ∧ final (operation_of this Logout []) w
    = emit (Broadcast Fixtures.bad_credentials (payload "logout"))
        (with_error Fixtures.bad_credentials
           (emit (HookCall "logout" []) w)).
Proof.
  intros this w.
  eapply (lifecycle_rejection_is_swallowed this Logout
            (Fixtures.with_all_hooks Fixtures.rejecting) _ [] w);
    done.
Defined.

Lemma lifecycle_value_is_passed_on_witness :
  let this := Fixtures.auth false
                {["local" := Fixtures.with_all_hooks
                               (Fixtures.fulfilling (VStr "ada"))]} in
  let w := Fixtures.world "local" (Fixtures.at_path "/") in
  result (operation_of this FetchUser []) w = Settled (Fulfilled (VStr "ada"))
  ∧ final (operation_of this FetchUser []) w
    = emit (HookCall "fetchUser" []) w.
Proof.
  intros this w.
  eapply (lifecycle_value_is_passed_on this FetchUser
            (Fixtures.with_all_hooks (Fixtures.fulfilling (VStr "ada")))
            _ [] w);
    done.
Defined.

Lemma lifecycle_throw_is_not_caught_witness :
  let this := Fixtures.auth false
                {["local" := Fixtures.with_all_hooks Fixtures.throwing]} in
  let w := Fixtures.world "local" (Fixtures.at_path "/") in
  operation_of this Login [] w
  = (emit (HookCall "login" []) w, Throw Fixtures.bad_credentials)
  ∧ result (operation_of this Login []) w = Threw Fixtures.bad_credentials
  ∧ final (operation_of this Login []) w = emit (HookCall "login" []) w.
Proof.
  intros this w.
  eapply (lifecycle_throw_is_not_caught this Login
            (Fixtures.with_all_hooks Fixtures.throwing) _ [] w);
    done.
Defined.

(** *** Login *)

Lemma login_success_witness :
  let this := Fixtures.auth false
                {["local" := Fixtures.with_all_hooks
                               (Fixtures.fulfilling (VStr "token"))]} in
  let w := Fixtures.world "local" (Fixtures.at_path "/login") in
  result (login this []) w = Settled (Fulfilled VUndefined)
  ∧ final (login this []) w
    = Storage.setState "busy" (VBool false)
        (with_error VNull
           (Storage.setState "busy" (VBool true)
              (emit (HookCall "login" []) w))).
Proof.
  intros this w.
  eapply (login_success this
            (Fixtures.with_all_hooks (Fixtures.fulfilling (VStr "token")))
            _ [] w);
    done.
Defined.

Lemma login_rejection_listener_throws_witness :
  let this := Fixtures.auth_with {["local" := Fixtures.failing_login]}
                [Fixtures.failing_listener]
                (fun _ => Promise_resolve Fixtures.empty_response) in
  let w := Fixtures.world "local" (Fixtures.at_path "/login") in
  result (login this []) w = Settled (Rejected Fixtures.listener_failure).
Proof.
  intros this w.
  eapply (login_rejection_listener_throws this Fixtures.failing_login
            _ [] w _ _ _ Fixtures.bad_credentials);
    done.
Defined.

(** [wrapLogin] sets [busy] and clears the last error at once; its promise
    settles as the wrapped one does, a value being replaced by
    [undefined] and a rejection kept, and in both cases [busy] is false
    when it settles. *)
Theorem wrapLogin_tracks_busy p w :
  ∃ q, wrapLogin p w
       = (with_error VNull (Storage.setState "busy" (VBool true) w), Normal q)
     ∧ state_field "busy" (wrapLogin p w).1 = VBool true
     ∧ error (wrapLogin p w).1 = VNull
     ∧ ∀ w', state_field "busy" (q w').1 = VBool false
             ∧ (q w').1 = Storage.setState "busy" (VBool false) (p w').1
             ∧ (q w').2 = match (p w').2 with
                          | Fulfilled _ => Fulfilled VUndefined
                          | Rejected e => Rejected e
                          end.
Proof.
  eexists. split; [reflexivity|]. split.
  { change (wrapLogin p w).1
      with (with_error VNull (Storage.setState "busy" (VBool true) w)).
    change (state_field "busy" (with_error VNull ?x))
      with (state_field "busy" x).
    by rewrite state_field_setState. }
  split; [done|]. intros w'. unfold catch_, then_.
  destruct (p w') as [w2 [v|e]];
    unfold run_handler, bind, modify, ret, Promise_resolve, Promise_reject;
    cbn [fst snd]; by rewrite state_field_setState.
Qed.

(** *** Error listeners *)





(** *** Switching and logging in *)

(** [loginWith] is [setStrategy] followed by [login]: when the switch
    throws, [loginWith] throws and [login] is not attempted; when the
    promise of the switch rejects, so does [loginWith]; otherwise [login]
    runs in the world the switch left, and what it throws reaches the
    caller as a rejection. *)
Theorem loginWith_is_switch_then_login this name args w :
  match setStrategy this name w with
  | (w1, Throw e) => loginWith this name args w = (w1, Throw e)
  | (w1, Normal p) =>
      match p w1 with
      | (w2, Rejected e) =>
          result (loginWith this name args) w = Settled (Rejected e)
          ∧ final (loginWith this name args) w = w2
      | (w2, Fulfilled _) =>
          result (loginWith this name args) w
          = inside_handler (result (login this args) w2)
          ∧ final (loginWith this name args) w = final (login this args) w2
      end
  end.
Proof.
  unfold result, final, loginWith, bind at 1 2 3 4 5.
  destruct (setStrategy this name w) as [w1 [p|e]]; [|done].
  cbn [ret]. unfold then_. destruct (p w1) as [w2 [v|e]]; [|done].
  unfold run_handler. by destruct (login this args w2) as [w3 [q|e]].
Qed.

(** With the name of the current strategy [loginWith] is [login], up to
    what [login] throws, which becomes a rejection. *)
Theorem loginWith_current_strategy this name args w :
  Storage.getUniversal "strategy" w = VStr name →
  result (loginWith this name args) w
  = inside_handler (result (login this args) w)
  ∧ final (loginWith this name args) w = final (login this args) w.
Proof.
  intros Hcur.
  assert (Hsame : setStrategy this name w
                  = (w, Normal (Promise_resolve VUndefined))).
  { unfold setStrategy, bind, gets.
    by rewrite (proj2 (strict_eq_str_spec name _) Hcur). }
  unfold result, final, loginWith, bind. rewrite Hsame.
  cbn [ret]. unfold then_, Promise_resolve, run_handler.
  by destruct (login this args w) as [w3 [q|e]].
Qed.

Lemma loginWith_current_strategy_witness :
  let this := Fixtures.auth false {["local" := Fixtures.failing_login]} in
  let w := Fixtures.world "local" (Fixtures.at_path "/login") in
  result (loginWith this "local" []) w
  = inside_handler (result (login this []) w)
  ∧ final (loginWith this "local" []) w = final (login this []) w.
Proof.
  intros this w. apply (loginWith_current_strategy this "local" [] w).
  reflexivity.
Defined.

(** Switching to a name for which the lookup of the active strategy then
    yields [undefined] persists the name and then throws out of
    [mounted]; nothing is rolled back, so the same switch asked again
    returns a resolved promise, and every lifecycle operation throws from
    then on. *)
Theorem setStrategy_unregistered_name_sticks this name args w :
  let w' := Storage.setUniversal "strategy" (VStr name) w in
  Storage.getUniversal "strategy" w ≠ VStr name →
  strategy this w' = None →
  setStrategy this name w = (w', Throw (TypeError_undefined "mounted"))
  ∧ loginWith this name args w = (w', Throw (TypeError_undefined "mounted"))
  ∧ setStrategy this name w' = (w', Normal (Promise_resolve VUndefined))
  ∧ ∀ h, operation_of this h args w'
         = (w', Throw (TypeError_undefined (method_of h))).
Proof.
  intros w' Hcur Hs.
  assert (Hsw : setStrategy this name w
                = (w', Throw (TypeError_undefined "mounted"))).
  { unfold setStrategy, bind at 1, gets.
    destruct (strict_eq_str _ _) eqn:E;
      [by apply strict_eq_str_spec in E|].
    unfold bind at 1, modify, mounted, bind.
    by rewrite (strategy_hook_none _ _ _ _ Hs). }
  split; [done|]. split.
  { unfold loginWith, bind. by rewrite Hsw. }
  split.
  { unfold setStrategy, bind, gets.
    rewrite (proj2 (strict_eq_str_spec name _)); [done|].
    apply getUniversal_setUniversal. }
  intros h.
  destruct h; cbn; unfold mounted, login, fetchUser, logout, reset, bind;
    by rewrite (strategy_hook_none _ _ _ _ Hs).
Qed.

Lemma setStrategy_unregistered_name_sticks_witness :
  let this := Fixtures.auth false {["local" := Fixtures.failing_login]} in
  let w := Fixtures.world "local" (Fixtures.at_path "/") in
  let w' := Storage.setUniversal "strategy" (VStr "oauth") w in
  setStrategy this "oauth" w = (w', Throw (TypeError_undefined "mounted"))
  ∧ loginWith this "oauth" [] w = (w', Throw (TypeError_undefined "mounted"))
  ∧ setStrategy this "oauth" w' = (w', Normal (Promise_resolve VUndefined))
  ∧ ∀ h, operation_of this h [] w'
         = (w', Throw (TypeError_undefined (method_of h))).
Proof.
  intros this w.
  apply (setStrategy_unregistered_name_sticks this "oauth" [] w);
    [intros [=]|reflexivity].
Defined.

(** *** Fallbacks *)

(** [fetchUserOnce] fetches only while there is no user: with a user it
    returns a resolved promise and calls no hook; without one it is
    [fetchUser] with the same arguments.  [mounted] on a strategy without
    the hook is [fetchUserOnce] without arguments, whatever arguments it
    was given. *)
Theorem fetchUserOnce_only_without_user this s args w :
  strategy this w = Some s →
  (truthy (state_field "user" w) = true →
     fetchUserOnce this args w = (w, Normal (Promise_resolve VUndefined))
     ∧ (s_mounted s = None →
        mounted this args w = (w, Normal (Promise_resolve VUndefined))))
  ∧ (truthy (state_field "user" w) = false →
     fetchUserOnce this args w = fetchUser this args w
     ∧ (s_mounted s = None → mounted this args w = fetchUser this [] w)).
Proof.
  intros Hs. split; intros Hu.
  - assert (Hone : ∀ a, fetchUserOnce this a w
                        = (w, Normal (Promise_resolve VUndefined))).
    { intros a. unfold fetchUserOnce, bind, gets. by rewrite Hu. }
    split; [apply Hone|]. intros Hm.
    unfold mounted, bind at 1.
    rewrite (strategy_hook_some _ _ _ _ _ Hs), Hm. apply Hone.
  - assert (Hone : ∀ a, fetchUserOnce this a w = fetchUser this a w).
    { intros a. unfold fetchUserOnce, bind at 1, gets. by rewrite Hu. }
    split; [apply Hone|]. intros Hm.
    unfold mounted, bind at 1.
    rewrite (strategy_hook_some _ _ _ _ _ Hs), Hm. apply Hone.
Qed.

Lemma fetchUserOnce_only_without_user_witness :
  let fetching :=
    {| s_mounted := None; s_login := None;
       s_fetchUser := Some (Fixtures.fulfilling VUndefined);
       s_logout := None; s_reset := None |} in
  let this := Fixtures.auth false {["local" := fetching]} in
  let w := Fixtures.world_of_user (VObj [("name", VStr "ada")]) in
  let w0 := Fixtures.world "local" (Fixtures.at_path "/") in
  (fetchUserOnce this [VNum 1] w = (w, Normal (Promise_resolve VUndefined))
   ∧ mounted this [VNum 1] w = (w, Normal (Promise_resolve VUndefined)))
  ∧ fetchUserOnce this [VNum 1] w0 = fetchUser this [VNum 1] w0
  ∧ mounted this [VNum 1] w0 = fetchUser this [] w0.
Proof.
  intros fetching this w w0.
  pose proof (fetchUserOnce_only_without_user this fetching [VNum 1] w
                eq_refl) as [Hwith _].
  pose proof (fetchUserOnce_only_without_user this fetching [VNum 1] w0
                eq_refl) as [_ Hwithout].
  destruct (Hwith eq_refl) as [H1 H2]. destruct (Hwithout eq_refl) as [H3 H4].
  split; [split; [exact H1|exact (H2 eq_refl)]|].
  split; [exact H3|exact (H4 eq_refl)].
Defined.



Lemma getUniversal_setUniversal_ne k k' v w :
  k ≠ k' →
  Storage.getUniversal k (Storage.setUniversal k' v w)
  = Storage.getUniversal k w.
Proof.
  intros Hne. unfold Storage.getUniversal, Storage.setUniversal, with_state,
    with_universal. cbn. by rewrite lookup_insert_ne.
Qed.

Lemma state_field_setUniversal k k' v w :
  state_field k (Storage.setUniversal k' v w)
  = if decide (k' = k) then v else state_field k w.
Proof.
  unfold state_field, Storage.setUniversal, with_state, with_universal. cbn.
  rewrite lookup_insert. by case_decide.
Qed.

(** [reset] on a strategy without the hook logs out: afterwards there is
    no user, the token of the active strategy is [null], no scope is
    known, and [loggedIn] is [false] unless the token is kept under that
    very key. *)
Theorem reset_fallback_logs_out getProp this s args scope w :
  strategy this w = Some s →
  s_reset s = None →
  let w' := final (reset this args) w in
  result (reset this args) w = Settled (Fulfilled VUndefined)
  ∧ state_field "user" w' = VNull
  ∧ (getToken this (state_field "strategy" w) w').2 = Normal VNull
  ∧ hasScope getProp this scope w' = VUndefined
  ∧ (token_key this (state_field "strategy" w) ≠ "loggedIn" →
     state_field "loggedIn" w' = VBool false).
Proof.
  intros Hs Hr w'. subst w'. unfold result, final.
  rewrite (reset_fallback _ _ _ _ Hs Hr). cbn [fst snd Promise_resolve].
  assert (Hu : state_field "user" (cleared this w) = VNull).
  { unfold cleared. rewrite state_field_setUniversal.
    case_decide; [done|]. by rewrite state_field_setState. }
  split; [done|]. split; [done|]. split.
  { unfold getToken, gets, cleared. cbn [snd].
    by rewrite getUniversal_setUniversal. }
  split.
  { unfold hasScope. by rewrite Hu. }
  intros Hkey. unfold cleared. rewrite state_field_setUniversal.
  case_decide; [done|]. by rewrite !state_field_setState.
Qed.

Lemma reset_fallback_logs_out_witness :
  let this := Fixtures.auth false {["local" := Fixtures.no_hooks]} in
  let w := Storage.setUniversal "_token.local" (VStr "Bearer abc")
             (Fixtures.world_of_user
                (VObj [("scope", VArr [VStr "admin"])])) in
  let w' := final (reset this []) w in
  result (reset this []) w = Settled (Fulfilled VUndefined)
  ∧ state_field "user" w' = VNull
  ∧ (getToken this (state_field "strategy" w) w').2 = Normal VNull
  ∧ hasScope Fixtures.getProp_own this "admin" w' = VUndefined
  ∧ state_field "loggedIn" w' = VBool false.
Proof.
  intros this w.
  pose proof (reset_fallback_logs_out Fixtures.getProp_own this
                Fixtures.no_hooks [] "admin" w eq_refl eq_refl)
    as (H1 & H2 & H3 & H4 & H5).
  repeat (split; [assumption|]). apply H5. discriminate.
Defined.

(** *** Tokens *)

Lemma string_app_inj_l (p a b : string) : p ++ a = p ++ b → a = b.
Proof. induction p as [|c p IH]; cbn; [done|]. intros [= H]. by apply IH. Qed.

(** A token set for a strategy name is the token read for that name, and
    the tokens of the strategies of other names are as before. *)
Theorem token_set_then_get this name name' token w :
  let w' := (setToken this (VStr name) token w).1 in
  (getToken this (VStr name) w').2 = Normal token
  ∧ (name' ≠ name →
     (getToken this (VStr name') w').2 = (getToken this (VStr name') w).2).
Proof.
  intros w'. subst w'. unfold getToken, setToken, gets, modify.
  cbn [fst snd]. split.
  - by rewrite getUniversal_setUniversal.
  - intros Hne. rewrite getUniversal_setUniversal_ne; [done|].
    unfold token_key. cbn [to_string]. intros Heq.
    by apply string_app_inj_l in Heq.
Qed.

Lemma token_set_then_get_witness :
  let this := Fixtures.auth false ∅ in
  let w := Storage.setUniversal "_token.oauth" (VStr "old")
             (Fixtures.world "local" (Fixtures.at_path "/")) in
  let w' := (setToken this (VStr "local") (VStr "abc") w).1 in
  (getToken this (VStr "local") w').2 = Normal (VStr "abc")
  ∧ (getToken this (VStr "oauth") w').2 = (getToken this (VStr "oauth") w).2.
Proof.
  intros this w.
  pose proof (token_set_then_get this "local" "oauth" (VStr "abc") w)
    as [Hsame Hother].
  split; [exact Hsame|apply Hother; discriminate].
Defined.

(** *** Deprecated accessors *)

Lemma getState_each_shown keys d w :
  get_state_warn_shown d = true →
  getState_each keys d w = (d, (fun key => Storage.getState key w) <$> keys).
Proof.
  intros Hd. induction keys as [|key keys IH]; [done|].
  cbn [getState_each]. unfold getState. rewrite Hd. cbn [negb].
  by rewrite IH.
Qed.

(** However often the deprecated [getState] is called, its warning is
    written once, by the first call; every call returns what the storage
    holds, and the flag of the [state] accessor is left alone. *)
Theorem getState_warns_once keys d w :
  let d' := (getState_each keys d w).1 in
  (getState_each keys d w).2 = (fun key => Storage.getState key w) <$> keys
  ∧ console d'
    = (console d ++
       if get_state_warn_shown d || bool_decide (keys = [])
       then [] else [getState_warning])%list
  ∧ state_warn_shown d' = state_warn_shown d
  ∧ (keys ≠ [] → get_state_warn_shown d' = true).
Proof.
  destruct (get_state_warn_shown d) eqn:Hd.
  - rewrite (getState_each_shown _ _ _ Hd). cbn.
    by rewrite app_nil_r.
  - destruct keys as [|key keys].
    + cbn. by rewrite Hd, app_nil_r.
    + cbn [getState_each]. unfold getState. rewrite Hd. cbn [negb].
      rewrite getState_each_shown by done. done.
Qed.

Lemma getState_warns_once_witness :
  let d := {| state_warn_shown := false; get_state_warn_shown := false;
              console := [] |} in
  let w := Fixtures.world "local" (Fixtures.at_path "/") in
  get_state_warn_shown
    (getState_each ["user"; "loggedIn"; "user"] d w).1 = true.
Proof.
  intros d w.
  pose proof (getState_warns_once ["user"; "loggedIn"; "user"] d w)
    as (_ & _ & _ & H).
  apply H. discriminate.
Defined.

(** The two accessors warn independently of each other, each once. *)
Example deprecated_accessors_warn_once_each :
  let d := {| state_warn_shown := false; get_state_warn_shown := false;
              console := [] |} in
  let w := Fixtures.world "local" (Fixtures.at_path "/") in
  let d1 := (get_state d w).1 in
  let d2 := (getState "user" d1 w).1 in
  let d3 := (get_state d2 w).1 in
  let d4 := (getState "loggedIn" d3 w).1 in
  console d4 = [state_warning; getState_warning]
  ∧ (get_state d w).2 = state w
  ∧ (getState "loggedIn" d3 w).2 = VBool false.
Proof. cbv zeta. repeat split. Qed.

(** *** More on redirects *)

Section RedirectEffects.

Variable isRelativeURL : value → bool.
Variable isSameURL : value → value → bool.
Variable this : Auth.

Lemma rewritten_frame name w :
  let w1 := rewritten isRelativeURL isSameURL this name w in
  (∀ k, k ≠ "redirect" →
     Storage.getUniversal k w1 = Storage.getUniversal k w
     ∧ state_field k w1 = state_field k w)
  ∧ error w1 = error w ∧ route w1 = route w ∧ trace w1 = trace w.
Proof.
  cbn zeta. unfold rewritten.
  repeat match goal with |- context [if ?b then _ else _] => destruct b end;
    (split; [|done]); intros k Hk; try done;
    by rewrite getUniversal_setUniversal_ne, state_field_setUniversal,
         decide_False.
Qed.

(** What a call of [redirect] can have done once it is over: of the
    storage it has written at most the [redirect] key; the last error and
    the route are as before; it has navigated at most once, to the
    resolved destination, through [location.replace] only in the browser
    with [noRouter] set; and without a destination for the event it has
    done nothing at all. *)
Theorem redirect_effects name noRouter w :
  let w' := (redirect isRelativeURL isSameURL this name noRouter w).1 in
  (∀ k, k ≠ "redirect" →
     Storage.getUniversal k w' = Storage.getUniversal k w
     ∧ state_field k w' = state_field k w)
  ∧ error w' = error w
  ∧ route w' = route w
  ∧ (trace w' = trace w
     ∨ trace w'
       = (trace w ++
          [let to := resolved_destination isRelativeURL this name w in
           if browser this && noRouter then LocationReplace to
           else RouterRedirect to])%list)
  ∧ (truthy (configured_destination this name) = false → w' = w).
Proof.
  cbn zeta.
  destruct (truthy (configured_destination this name)) eqn:Hto.
  - rewrite (redirect_enabled _ _ _ _ _ _ Hto). cbn zeta. cbn [fst snd].
    destruct (rewritten_frame name w) as (Hk & He & Hr & Ht).
    cbn zeta in Hk, He, Hr, Ht.
    destruct (isSameURL _ _).
    + repeat split; try done; try apply Hk; auto.
    + repeat split; try done; try (by apply Hk).
      right. cbn. by rewrite Ht.
  - rewrite (redirect_no_destination _ _ _ _ _ _ Hto).
    repeat split; auto.
Qed.

(** With rewrites enabled a login redirect remembers [from] when it is a
    relative URL other than the login page, and otherwise keeps what was
    remembered; with rewrites disabled no redirect writes the storage. *)
Theorem login_redirect_remembers_from name noRouter w :
  let w' := (redirect isRelativeURL isSameURL this name noRouter w).1 in
  (rewriteRedirects (options this) = true →
   name = "login" →
   truthy (configured_destination this "login") = true →
   Storage.getUniversal "redirect" w'
   = if isRelativeURL (redirect_from this w)
        && negb (isSameURL (configured_destination this "login")
                   (redirect_from this w))
     then redirect_from this w
     else Storage.getUniversal "redirect" w)
  ∧ (rewriteRedirects (options this) = false →
     universal w' = universal w ∧ state w' = state w).
Proof.
  cbn zeta. split.
  - intros Hrw -> Hto. rewrite (redirect_enabled _ _ _ _ _ _ Hto).
    cbn zeta. unfold rewritten. rewrite Hrw.
    cbn [String.eqb Ascii.eqb Bool.eqb].
    destruct (isRelativeURL _ && negb _), (isSameURL _ _); cbn [fst];
      try done; apply getUniversal_setUniversal.
  - intros Hrw.
    destruct (truthy (configured_destination this name)) eqn:Hto.
    + rewrite (redirect_enabled _ _ _ _ _ _ Hto). cbn zeta.
      unfold rewritten. rewrite Hrw. by destruct (isSameURL _ _).
    + by rewrite (redirect_no_destination _ _ _ _ _ _ Hto).
Qed.

End RedirectEffects.

Lemma redirect_effects_witness :
  let this := Fixtures.auth_with ∅ []
                (fun _ => Promise_resolve Fixtures.empty_response) in
  let w := Storage.setUniversal "_token.local" (VStr "abc")
             (Fixtures.world "local" (Fixtures.at_path "/secret")) in
  let go name :=
    (redirect Fixtures.isRelativeURL_slash Fixtures.isSameURL_path this
       name true w).1 in
  (Storage.getUniversal "_token.local" (go "login")
   = Storage.getUniversal "_token.local" w
   ∧ state_field "user" (go "login") = state_field "user" w)
  ∧ go "callback" = w.
Proof.
  intros this w go.
  pose proof (redirect_effects Fixtures.isRelativeURL_slash
                Fixtures.isSameURL_path this "login" true w)
    as (Hframe & _).
  pose proof (redirect_effects Fixtures.isRelativeURL_slash
                Fixtures.isSameURL_path this "callback" true w)
    as (_ & _ & _ & _ & Hnone).
  split.
  - split; [apply (Hframe "_token.local")|apply (Hframe "user")];
      discriminate.
  - apply Hnone. reflexivity.
Defined.

Lemma login_redirect_remembers_from_witness :
  let this := Fixtures.auth false ∅ in
  let w := Storage.setUniversal "redirect" (VStr "/old")
             (Fixtures.world "local"
                {| path := "/login"; fullPath := "/login?next=1" |}) in
  Storage.getUniversal "redirect"
    (redirect Fixtures.isRelativeURL_slash Fixtures.isSameURL_path this
       "login" false w).1
  = VStr "/old".
Proof.
  intros this w.
  pose proof (login_redirect_remembers_from Fixtures.isRelativeURL_slash
                Fixtures.isSameURL_path this "login" false w) as [H _].
  apply H; reflexivity.
Defined.

(** *** Requests *)

Lemma assoc_assoc_set k k' v fields :
  assoc k (assoc_set k' v fields)
  = if String.eqb k k' then v else assoc k fields.
Proof.
  induction fields as [|[k0 v0] fields IH]; cbn.
  - by destruct (String.eqb k k').
  - destruct (String.eqb k' k0) eqn:E0; cbn.
    + apply String.eqb_eq in E0. subst k0.
      by destruct (String.eqb k k').
    + destruct (String.eqb k k0) eqn:E1; [|done].
      apply String.eqb_eq in E1. subst k0.
      destruct (String.eqb k k') eqn:E2; [|done].
      apply String.eqb_eq in E2. subst k'.
      by rewrite String.eqb_refl in E0.
Qed.

Lemma assoc_not_in k fields : k ∉ fields.*1 → assoc k fields = VUndefined.
Proof.
  induction fields as [|[k0 v0] fields IH]; [done|]. cbn.
  rewrite not_elem_of_cons. intros [Hne Hnot].
  destruct (String.eqb k k0) eqn:E; [|by apply IH].
  by apply String.eqb_eq in E.
Qed.

Lemma assoc_foldl_not_in k acc src :
  k ∉ src.*1 →
  assoc k (foldl (fun acc kv => assoc_set kv.1 kv.2 acc) acc src)
  = assoc k acc.
Proof.
  revert acc. induction src as [|[k0 v0] src IH]; intros acc; [done|].
  cbn. rewrite not_elem_of_cons. intros [Hne Hnot].
  rewrite IH by done. rewrite assoc_assoc_set.
  destruct (String.eqb k k0) eqn:E; [|done].
  by apply String.eqb_eq in E.
Qed.

Lemma assoc_foldl_in k acc src :
  NoDup src.*1 → k ∈ src.*1 →
  assoc k (foldl (fun acc kv => assoc_set kv.1 kv.2 acc) acc src)
  = assoc k src.
Proof.
  revert acc. induction src as [|[k0 v0] src IH]; intros acc.
  - intros _ Hin. by apply elem_of_nil in Hin.
  - cbn. rewrite NoDup_cons. intros [Hfresh Hnd] Hin.
    destruct (String.eqb k k0) eqn:E.
    + apply String.eqb_eq in E. subst k0.
      rewrite assoc_foldl_not_in by done.
      by rewrite assoc_assoc_set, String.eqb_refl.
    + apply elem_of_cons in Hin as [->|Hin];
        [by rewrite String.eqb_refl in E|].
      by apply IH.
Qed.

(** The merge of [Object.assign({}, defaults, endpoint)] on two objects:
    a field of the endpoint wins, also when it holds [undefined]; the
    other fields are those of the defaults. *)
Lemma assign2_field k fd fe :
  NoDup fd.*1 → NoDup fe.*1 →
  assoc k (assign2 (VObj fd) (VObj fe))
  = if bool_decide (k ∈ fe.*1) then assoc k fe else assoc k fd.
Proof.
  intros Hd He. unfold assign2. cbn [own_props]. case_bool_decide.
  - by apply assoc_foldl_in.
  - rewrite assoc_foldl_not_in by done.
    destruct (decide (k ∈ fd.*1)).
    + by apply assoc_foldl_in.
    + rewrite assoc_foldl_not_in by done. symmetry. by apply assoc_not_in.
Qed.

Section Requests.

Variable getProp : value → value → value.
Variable isUnset : value → bool.
Variable this : Auth.

(** The endpoint [request] hands to the transport. *)
Lemma request_sent endpoint defaults w :
  ∃ q, request getProp this endpoint defaults w
       = (emit (TransportRequest
                  (if typeof_object defaults
                   then VObj (assign2 defaults endpoint) else endpoint)) w,
          Normal q)
     ∧ q = catch_
             (then_ (axios_request this
                       (if typeof_object defaults
                        then VObj (assign2 defaults endpoint) else endpoint))
                (fun response =>
                   let! propertyName :=
                     read_prop "propertyName"
                       (if typeof_object defaults
                        then VObj (assign2 defaults endpoint) else endpoint) in
                   let! data := read_prop "data" response in
                   if truthy propertyName
                   then ret (Promise_resolve (getProp data propertyName))
                   else ret (Promise_resolve data)))
             (fun error =>
                run! callOnError this error (payload "request") in
                ret (Promise_reject error)).
Proof. eexists. split; reflexivity. Qed.

(** [request] makes one transport request, with the endpoint merged over
    the defaults: for two objects every field of the endpoint is sent as
    it is and the defaults fill in the others; without defaults the
    endpoint is sent as it is. *)
Theorem request_sends_endpoint_over_defaults fe fd w :
  NoDup fd.*1 → NoDup fe.*1 →
  (∃ sent,
      trace (request getProp this (VObj fe) (VObj fd) w).1
      = (trace w ++ [TransportRequest (VObj sent)])%list
      ∧ ∀ k, assoc k sent
             = if bool_decide (k ∈ fe.*1) then assoc k fe else assoc k fd)
  ∧ trace (request getProp this (VObj fe) VUndefined w).1
    = (trace w ++ [TransportRequest (VObj fe)])%list.
Proof.
  intros Hd He. split; [|done].
  exists (assign2 (VObj fd) (VObj fe)). split; [done|].
  intros k. by apply assign2_field.
Qed.

(** When the transport answers, [request] is fulfilled with the [data] of
    the response, or with what the [propertyName] of the endpoint selects
    in it, and nothing is broadcast. *)
Theorem request_returns_data fe response w w2 :
  not_nullish response = true →
  axios_request this (VObj fe) (emit (TransportRequest (VObj fe)) w)
    = (w2, Fulfilled response) →
  result (request getProp this (VObj fe) VUndefined) w
  = Settled (Fulfilled
      (if truthy (assoc "propertyName" fe)
       then getProp (prop "data" response) (assoc "propertyName" fe)
       else prop "data" response))
  ∧ final (request getProp this (VObj fe) VUndefined) w = w2.
Proof.
  intros Hresp Hax.
  destruct (request_sent (VObj fe) VUndefined w) as (q & Hq & Hdef).
  cbn [typeof_object] in Hq, Hdef.
  unfold result, final. rewrite Hq. subst q.
  unfold catch_, then_. rewrite Hax.
  unfold run_handler, bind, read_prop. cbn [not_nullish prop]. rewrite Hresp.
  cbn [ret]. by destruct (truthy (assoc "propertyName" fe)).
Qed.

(** When the transport rejects with [e], [request] records and broadcasts
    [e] under [request] and, the listeners having returned, rejects with
    [e]. *)
Theorem request_failure_is_broadcast_and_rethrown
    endpoint defaults w w2 e w3 :
  let sent := if typeof_object defaults
              then VObj (assign2 defaults endpoint) else endpoint in
  axios_request this sent (emit (TransportRequest sent) w)
    = (w2, Rejected e) →
  call_each (errorListeners this) e (payload "request")
    (emit (Broadcast e (payload "request")) (with_error e w2))
    = (w3, Normal tt) →
  result (request getProp this endpoint defaults) w = Settled (Rejected e)
  ∧ final (request getProp this endpoint defaults) w = w3.
Proof.
  intros sent Hax Hls.
  destruct (request_sent endpoint defaults w) as (q & Hq & Hdef).
  fold sent in Hq, Hdef.
  unfold result, final. rewrite Hq. subst q.
  unfold catch_, then_. rewrite Hax.
  unfold run_handler, bind. rewrite callOnError_unfold, Hls. done.
Qed.

End Requests.

Section RequestWith.

Variable getProp : value → value → value.
Variable isUnset : value → bool.
Variable this : Auth.




End RequestWith.

Lemma request_sends_endpoint_over_defaults_witness :
  let this := Fixtures.auth false ∅ in
  let w := Fixtures.world "local" (Fixtures.at_path "/") in
  let fe := [("url", VStr "/api/user"); ("method", VStr "post")] in
  let fd := [("method", VStr "get"); ("timeout", VNum 5)] in
  (∃ sent,
      trace (request Fixtures.getProp_own this (VObj fe) (VObj fd) w).1
      = (trace w ++ [TransportRequest (VObj sent)])%list
      ∧ ∀ k, assoc k sent
             = if bool_decide (k ∈ fe.*1) then assoc k fe else assoc k fd)
  ∧ trace (request Fixtures.getProp_own this (VObj fe) VUndefined w).1
    = (trace w ++ [TransportRequest (VObj fe)])%list.
Proof.
  intros this w fe fd.
  apply (request_sends_endpoint_over_defaults Fixtures.getProp_own this
           fe fd w);
    apply (bool_decide_unpack _); vm_compute; exact I.
Defined.

(** The merge of that request, evaluated. *)
Example request_merge_example :
  assign2 (VObj [("method", VStr "get"); ("timeout", VNum 5)])
          (VObj [("url", VStr "/api/user"); ("method", VStr "post")])
  = [("method", VStr "post"); ("timeout", VNum 5); ("url", VStr "/api/user")].
Proof. reflexivity. Qed.

Lemma request_returns_data_witness :
  let response := VObj [("data", VObj [("user", VStr "ada")])] in
  let this := Fixtures.auth_with ∅ [] (fun _ => Promise_resolve response) in
  let w := Fixtures.world "local" (Fixtures.at_path "/") in
  let fe := [("url", VStr "/api/user"); ("propertyName", VStr "user")] in
  result (request Fixtures.getProp_own this (VObj fe) VUndefined) w
  = Settled (Fulfilled (VStr "ada"))
  ∧ final (request Fixtures.getProp_own this (VObj fe) VUndefined) w
    = emit (TransportRequest (VObj fe)) w.
Proof.
  intros response this w fe.
  apply (request_returns_data Fixtures.getProp_own this fe response w);
    reflexivity.
Defined.

Lemma request_failure_is_broadcast_and_rethrown_witness :
  let e := VError "Error" "Network Error" in
  let this := Fixtures.auth_with ∅ [Fixtures.noting "seen"]
                (fun _ => Promise_reject e) in
  let w := Fixtures.world "local" (Fixtures.at_path "/") in
  let endpoint := VObj [("url", VStr "/api/user")] in
  result (request Fixtures.getProp_own this endpoint VUndefined) w
  = Settled (Rejected e)
  ∧ final (request Fixtures.getProp_own this endpoint VUndefined) w
    = Storage.setState "seen" e
        (emit (Broadcast e (payload "request"))
           (with_error e (emit (TransportRequest endpoint) w))).
Proof.
  intros e this w endpoint.
  eapply (request_failure_is_broadcast_and_rethrown Fixtures.getProp_own
            this endpoint VUndefined w);
    reflexivity.
Defined.


(** A header given by the caller is sent instead of the token. *)
Example requestWith_keeps_given_header :
  let this := Fixtures.auth false ∅ in
  let w := Storage.setUniversal "_token.local" (VStr "Bearer abc")
             (Fixtures.world "local" (Fixtures.at_path "/")) in
  let endpoint :=
    VObj [("url", VStr "/api/user");
          ("headers", VObj [("Authorization", VStr "Basic xyz")])] in
  trace (requestWith Fixtures.getProp_own Fixtures.isUnset_nullish this
           (VStr "local") endpoint VUndefined w).1
  = [TransportRequest endpoint].
Proof. reflexivity. Qed.
